(** * Masterclass registration site: a shallow embedding of [server.js] and
      [public/script.js], and the properties of its reminder scheduling,
      registration handling, routing and calendar slots. *)

From Stdlib Require Import ZArith Lia Ascii String.
From stdpp Require Import gmap strings list.

Local Open Scope Z_scope.

(** ** The JavaScript platform

    The parts of ECMAScript and of Node.js the two source files call into.
    A time value is a number of milliseconds since the epoch; a JavaScript
    number that holds one is modelled as [option Z], [None] standing for
    [NaN]. Strings are byte strings (UTF-8). *)
Module JS.

(** A number that is either an integer or NaN. *)
Definition num := option Z.

Definition NaN : num := None.

(** [a + b] on such numbers. *)
Definition nadd (a : num) (b : Z) : num := (λ x, x + b) <$> a.

(** [a - b]. *)
Definition nsub (a : num) (b : Z) : num := (λ x, x - b) <$> a.

(** [a <= b]: every comparison with NaN is false. *)
Definition nle (a : num) (b : Z) : bool :=
  match a with Some x => bool_decide (x ≤ b) | None => false end.

(** [a >= b]. *)
Definition nge (a : num) (b : Z) : bool :=
  match a with Some x => bool_decide (b ≤ x) | None => false end.

(** [a === b] for a number against an integer literal. *)
Definition neq (a : num) (b : Z) : bool := bool_decide (a = Some b).

(** ECMAScript TimeClip: a time value is at most 8.64e15 ms from the
    epoch; anything else is NaN. *)
Definition maxTime : Z := 8640000000000000.

Definition TimeClip (t : num) : num :=
  match t with
  | Some x => if bool_decide (Z.abs x ≤ maxTime) then Some x else None
  | None => None
  end.

(** A [Date] object is its time value; [None] is an Invalid Date. *)
Definition Date := num.

(** [new Date(number)]. *)
Definition new_Date (t : num) : Date := TimeClip t.

(** [date.getTime()]. *)
Definition getTime (d : Date) : num := d.

Definition msPerDay : Z := 86400000.

(** Year, month (1..12) and day of month of a day number counted from
    1970-01-01, in the proleptic Gregorian calendar. *)
Definition civil_from_days (z : Z) : Z * Z * Z :=
  let z := z + 719468 in
  let era := z / 146097 in
  let doe := z mod 146097 in
  let yoe := (doe - doe / 1460 + doe / 36524 - doe / 146096) / 365 in
  let y := yoe + era * 400 in
  let doy := doe - (365 * yoe + yoe / 4 - yoe / 100) in
  let mp := (5 * doy + 2) / 153 in
  let d := doy - (153 * mp + 2) / 5 + 1 in
  let m := if bool_decide (mp < 10) then mp + 3 else mp - 9 in
  (if bool_decide (m ≤ 2) then y + 1 else y, m, d).

(** The inverse: the day number of a calendar date. *)
Definition days_from_civil (y m d : Z) : Z :=
  let y := if bool_decide (m ≤ 2) then y - 1 else y in
  let era := y / 400 in
  let yoe := y mod 400 in
  let doy := (153 * (if bool_decide (2 < m) then m - 3 else m + 9) + 2) / 5 + d - 1 in
  let doe := yoe * 365 + yoe / 4 - yoe / 100 + doy in
  era * 146097 + doe - 719468.

(** Day of the week of a day number, 0 = Sunday (1970-01-01 was a
    Thursday). *)
Definition WeekDay (day : Z) : Z := (day + 4) mod 7.

Definition digit (n : Z) : ascii := ascii_of_N (48 + Z.to_N (n mod 10)).

(** The last [k] decimal digits of [n], zero padded. *)
Fixpoint digits (k : nat) (n : Z) : string :=
  match k with
  | O => EmptyString
  | S k' => digits k' (n / 10) +:+ String (digit n) EmptyString
  end.

Definition year_string (y : Z) : string :=
  if bool_decide (0 ≤ y ≤ 9999) then digits 4 y
  else (if bool_decide (y < 0) then "-" else "+") +:+ digits 6 (Z.abs y).

(** The text of [Date.prototype.toISOString] for a valid time value:
    YYYY-MM-DDTHH:mm:ss.sssZ, with a signed six-digit year outside
    0..9999. *)
Definition iso_string (t : Z) : string :=
  let '(y, m, d) := civil_from_days (t / msPerDay) in
  let ms := t mod msPerDay in
  year_string y +:+ "-" +:+ digits 2 m +:+ "-" +:+ digits 2 d +:+ "T"
    +:+ digits 2 (ms / 3600000) +:+ ":" +:+ digits 2 (ms / 60000 mod 60)
    +:+ ":" +:+ digits 2 (ms / 1000 mod 60) +:+ "." +:+ digits 3 (ms mod 1000)
    +:+ "Z".

(** Errors the modelled code can raise. [SystemError] stands for the
    [Error] of a failed system call, with a code such as EISDIR or
    EACCES. *)
Inductive error := RangeError | TypeError | URIError | SystemError.

(** [date.toISOString()]: a RangeError on an Invalid Date. *)
Definition toISOString (d : Date) : error + string :=
  match d with
  | Some t => inr (iso_string t)
  | None => inl RangeError
  end.

(** Node's timers: [setTimeout(f, delay)] keeps a delay between 1 and
    2^31-1 ms and replaces any other one, NaN included, by 1 ms. *)
Definition TIMEOUT_MAX : Z := 2147483647.

Definition timer_after (delay : num) : Z :=
  match delay with
  | Some d => if bool_decide (1 ≤ d ≤ TIMEOUT_MAX) then d else 1
  | None => 1
  end.

(** *** Strings *)

Definition code (c : ascii) : Z := Z.of_N (N_of_ascii c).

Definition hexval (c : ascii) : option Z :=
  let n := code c in
  if bool_decide (48 ≤ n ≤ 57) then Some (n - 48)
  else if bool_decide (65 ≤ n ≤ 70) then Some (n - 55)
  else if bool_decide (97 ≤ n ≤ 102) then Some (n - 87)
  else None.

Definition hexdigit (n : Z) : ascii :=
  ascii_of_N (Z.to_N (if bool_decide (n < 10) then 48 + n else 55 + n)).

(** [%XY], upper case, for one byte. *)
Definition percent_byte (c : ascii) : string :=
  String "%" (String (hexdigit (code c / 16)) (String (hexdigit (code c mod 16)) EmptyString)).

Definition is_alnum (c : ascii) : bool :=
  let n := code c in
  bool_decide (48 ≤ n ≤ 57) || bool_decide (65 ≤ n ≤ 90) || bool_decide (97 ≤ n ≤ 122).

Definition one_of (set : string) (c : ascii) : bool :=
  bool_decide (c ∈ list_ascii_of_string set).

Fixpoint map_bytes (f : ascii → string) (s : string) : string :=
  match s with
  | EmptyString => EmptyString
  | String c rest => f c +:+ map_bytes f rest
  end.

(** [encodeURIComponent]: letters, digits and [-_.!~*'()] stay, every
    other byte of the UTF-8 text becomes [%XY]. *)
Definition encodeURIComponent (s : string) : string :=
  map_bytes (λ c, if is_alnum c || one_of "-_.!~*'()" c
                  then String c EmptyString else percent_byte c) s.

(** The serializer of [URLSearchParams]: letters, digits and [*-._]
    stay, a space becomes [+], every other byte becomes [%XY]. *)
Definition urlencoded (s : string) : string :=
  map_bytes (λ c, if is_alnum c || one_of "*-._" c then String c EmptyString
                  else if Ascii.eqb c " " then "+" else percent_byte c) s.

(** The pieces of [s] between the separators; never empty. *)
Fixpoint split (sep : ascii → bool) (s : string) : list string :=
  match s with
  | EmptyString => [EmptyString]
  | String c rest =>
      if sep c then EmptyString :: split sep rest
      else match split sep rest with
           | seg :: segs => String c seg :: segs
           | [] => [String c EmptyString]
           end
  end.

Definition is_slash (c : ascii) : bool := Ascii.eqb c "/".

Definition startsWith (s : string) (c : ascii) : bool :=
  match s with String c' _ => Ascii.eqb c' c | EmptyString => false end.

(** [s.slice(1)]. *)
Definition slice1 (s : string) : string :=
  match s with String _ rest => rest | EmptyString => EmptyString end.

Definition lower (c : ascii) : ascii :=
  if bool_decide (65 ≤ code c ≤ 90) then ascii_of_N (N_of_ascii c + 32) else c.

(** [s.toLowerCase()] on ASCII letters. *)
Definition toLowerCase (s : string) : string :=
  map_bytes (λ c, String (lower c) EmptyString) s.

(** *** decodeURIComponent *)

(** The input cut into literal bytes and [%XY] octets; [None] when a
    [%] is not followed by two hexadecimal digits. *)
Inductive item := Lit (c : ascii) | Oct (b : Z).

Fixpoint uri_items (s : string) : option (list item) :=
  match s with
  | EmptyString => Some []
  | String c rest =>
      if Ascii.eqb c "%" then
        match rest with
        | String a (String b rest') =>
            match hexval a, hexval b with
            | Some x, Some y => cons (Oct (16 * x + y)) <$> uri_items rest'
            | _, _ => None
            end
        | _ => None
        end
      else cons (Lit c) <$> uri_items rest
  end.

Definition byte (b : Z) : ascii := ascii_of_N (Z.to_N b).

(** For a leading octet of a UTF-8 sequence: how many continuation
    octets follow and the range of the first of them. *)
Definition utf8_lead (b : Z) : option (nat * Z * Z) :=
  if bool_decide (194 ≤ b ≤ 223) then Some (1%nat, 128, 191)
  else if bool_decide (b = 224) then Some (2%nat, 160, 191)
  else if bool_decide (b = 237) then Some (2%nat, 128, 159)
  else if bool_decide (225 ≤ b ≤ 239) then Some (2%nat, 128, 191)
  else if bool_decide (b = 240) then Some (3%nat, 144, 191)
  else if bool_decide (241 ≤ b ≤ 243) then Some (3%nat, 128, 191)
  else if bool_decide (b = 244) then Some (3%nat, 128, 143)
  else None.

(** The octets must spell well-formed UTF-8; [need] continuation
    octets are still owed, the next one within [lo..hi]. *)
Fixpoint uri_decode (need : nat) (lo hi : Z) (l : list item) : option string :=
  match l with
  | [] => match need with O => Some EmptyString | S _ => None end
  | Lit c :: l' =>
      match need with
      | O => String c <$> uri_decode O 128 191 l'
      | S _ => None
      end
  | Oct b :: l' =>
      match need with
      | O =>
          if bool_decide (b < 128) then String (byte b) <$> uri_decode O 128 191 l'
          else match utf8_lead b with
               | Some (n, lo', hi') => String (byte b) <$> uri_decode n lo' hi' l'
               | None => None
               end
      | S n =>
          if bool_decide (lo ≤ b ≤ hi) then String (byte b) <$> uri_decode n 128 191 l'
          else None
      end
  end.

(** [decodeURIComponent(s)]: a URIError on a malformed escape. *)
Definition decodeURIComponent (s : string) : error + string :=
  match uri_items s ≫= uri_decode O 128 191 with
  | Some r => inr r
  | None => inl URIError
  end.

(** *** The path of a parsed URL *)

(** [s] with every [%2e] and [%2E] read as a dot. *)
Fixpoint undot (s : string) : string :=
  match s with
  | EmptyString => EmptyString
  | String c rest =>
      match rest with
      | String a (String b rest') =>
          if Ascii.eqb c "%" && Ascii.eqb a "2" && Ascii.eqb (lower b) "e"
          then String "." (undot rest')
          else String c (undot rest)
      | _ => String c (undot rest)
      end
  end.

Definition single_dot (seg : string) : bool := bool_decide (undot seg = ".").
Definition double_dot (seg : string) : bool := bool_decide (undot seg = "..").

(** The bytes the URL parser escapes inside a path. *)
Definition path_escaped (c : ascii) : bool :=
  bool_decide (code c ≤ 32) || bool_decide (127 ≤ code c) || one_of "`<>?#{}" c
  || Ascii.eqb c (ascii_of_N 34).

Definition path_encode (seg : string) : string :=
  map_bytes (λ c, if path_escaped c then percent_byte c else String c EmptyString) seg.

(** The path state of the URL parser for an http URL: the segments
    seen so far are kept in reverse; a double-dot segment drops the
    last one, a dot segment at the very end leaves an empty segment. *)
Fixpoint path_state (acc : list string) (segs : list string) : list string :=
  match segs with
  | [] => reverse acc
  | seg :: rest =>
      let last := match rest with [] => true | _ => false end in
      if double_dot seg
      then path_state (if last then EmptyString :: tail acc else tail acc) rest
      else if single_dot seg
      then path_state (if last then EmptyString :: acc else acc) rest
      else path_state (path_encode seg :: acc) rest
  end.

Definition before_query (s : string) : string :=
  match split (one_of "?#") s with seg :: _ => seg | [] => EmptyString end.

(** [new URL(target, base).pathname] for a request target in origin
    form, one that begins with a single slash: the text up to the
    first [?] or [#], cut at [/] and [\]. *)
Definition URL_pathname (target : string) : string :=
  "/" +:+ String.concat "/"
    (path_state [] (split (one_of "/\") (slice1 (before_query target)))).

(** *** The path module (POSIX) *)

(** [normalizeString]: empty and dot segments vanish, a double dot
    removes the segment before it; above the start it is kept only
    when [allowAboveRoot]. The result is kept in reverse. *)
Fixpoint normalizeString (allowAboveRoot : bool) (acc : list string) (segs : list string)
  : list string :=
  match segs with
  | [] => reverse acc
  | seg :: rest =>
      if bool_decide (seg = EmptyString) || bool_decide (seg = ".")
      then normalizeString allowAboveRoot acc rest
      else if bool_decide (seg = "..")
      then match acc with
           | top :: acc' =>
               if bool_decide (top = "..")
               then normalizeString allowAboveRoot (seg :: acc) rest
               else normalizeString allowAboveRoot acc' rest
           | [] =>
               normalizeString allowAboveRoot (if allowAboveRoot then [seg] else []) rest
           end
      else normalizeString allowAboveRoot (seg :: acc) rest
  end.

Definition endsWith_slash (s : string) : bool :=
  match reverse (list_ascii_of_string s) with c :: _ => is_slash c | [] => false end.

(** [path.normalize(p)]. *)
Definition normalize (p : string) : string :=
  if bool_decide (p = EmptyString) then "." else
  let isAbsolute := startsWith p "/" in
  let trailingSeparator := endsWith_slash p in
  let r := String.concat "/" (normalizeString (negb isAbsolute) [] (split is_slash p)) in
  if bool_decide (r = EmptyString)
  then (if isAbsolute then "/" else if trailingSeparator then "./" else ".")
  else (if isAbsolute then "/" else EmptyString) +:+ r
         +:+ (if trailingSeparator then "/" else EmptyString).

(** [path.join(...parts)]. *)
Definition join (parts : list string) : string :=
  normalize (String.concat "/" (filter (λ p, p ≠ EmptyString) parts)).

(** [path.extname(p)]: from the last dot of the last segment, unless
    that dot opens the segment. *)
Fixpoint last_dot (s : string) : option string :=
  match s with
  | EmptyString => None
  | String c rest =>
      match last_dot rest with
      | Some e => Some e
      | None => if Ascii.eqb c "." then Some s else None
      end
  end.

Definition basename (p : string) : string :=
  default EmptyString (last (filter (λ seg, seg ≠ EmptyString) (split is_slash p))).

Definition extname (p : string) : string :=
  match basename p with
  | EmptyString => EmptyString
  | String c rest =>
      if bool_decide (String c rest = "..") then EmptyString
      else default EmptyString (last_dot rest)
  end.

(** *** A date-time string parser *)

Fixpoint number (ds : list ascii) (acc : Z) : option Z :=
  match ds with
  | [] => Some acc
  | c :: ds' =>
      if bool_decide (48 ≤ code c ≤ 57) then number ds' (10 * acc + (code c - 48))
      else None
  end.

Definition digits_at (s : list ascii) (start len : nat) : option Z :=
  number (take len (drop start s)) 0.

Definition char_at (s : list ascii) (i : nat) (c : ascii) : bool :=
  bool_decide (s !! i = Some c).

(** The time value of a string of the form YYYY-MM-DDTHH:mm:ss.sssZ,
    the one [toISOString] writes for the years 0..9999; NaN for any
    other string. An engine's [Date.parse] accepts this form and more. *)
Definition parse_iso (str : string) : num :=
  let s := list_ascii_of_string str in
  if bool_decide (length s = 24%nat) && char_at s 4 "-" && char_at s 7 "-"
     && char_at s 10 "T" && char_at s 13 ":" && char_at s 16 ":"
     && char_at s 19 "." && char_at s 23 "Z"
  then
    y ← digits_at s 0 4; m ← digits_at s 5 2; d ← digits_at s 8 2;
    hh ← digits_at s 11 2; mm ← digits_at s 14 2; ss ← digits_at s 17 2;
    ms ← digits_at s 20 3;
    if bool_decide (civil_from_days (days_from_civil y m d) = (y, m, d))
       && bool_decide (hh ≤ 23) && bool_decide (mm ≤ 59) && bool_decide (ss ≤ 59)
    then Some (days_from_civil y m d * msPerDay + hh * 3600000 + mm * 60000
               + ss * 1000 + ms)
    else None
  else None.

(** *** parseInt *)

Definition is_white (c : ascii) : bool :=
  bool_decide (9 ≤ code c ≤ 13) || bool_decide (code c = 32).

Fixpoint trim_start (s : string) : string :=
  match s with
  | EmptyString => EmptyString
  | String c rest => if is_white c then trim_start rest else s
  end.

(** The number written by the leading decimal digits of [s]; [acc]
    is what was read so far, [None] before the first digit. *)
Fixpoint digits_prefix (s : string) (acc : option Z) : option Z :=
  match s with
  | EmptyString => acc
  | String c rest =>
      if bool_decide (48 ≤ code c ≤ 57)
      then digits_prefix rest (Some (10 * default 0 acc + (code c - 48)))
      else acc
  end.

(** [parseInt(s, 10)]: leading white space (the ASCII one here) and
    a sign are skipped, the digits that follow are read, anything
    after them is ignored; NaN when there is no digit. The digits are
    read exactly, where a JavaScript number rounds beyond 2^53. *)
Definition parseInt (s : string) : num :=
  match trim_start s with
  | EmptyString => NaN
  | String c rest =>
      if Ascii.eqb c "-" then Z.opp <$> digits_prefix rest None
      else if Ascii.eqb c "+" then digits_prefix rest None
      else digits_prefix (String c rest) None
  end.

End JS.

(** ** [public/script.js]: the calendar slots *)
Module Script.
Import JS.

(** What [getTimesForDate] reads from its [Date] argument, in local
    time. The getters of an Invalid Date all answer NaN. *)
Record date := {
  getFullYear : num;
  getMonth : num;
  getDate : num;
  getDay : num
}.

Definition getTimesForDate (d : date) : list string :=
  let dow := getDay d in
  if neq (getFullYear d) 2025 && neq (getMonth d) 7 && neq (getDate d) 23 && neq dow 6
  then ["09:30"; "14:00"; "16:00"; "18:30"; "20:30"; "22:00"]
  else if nge dow 1 && nle dow 4
  then ["15:00"; "18:30"; "20:30"]
  else if neq dow 5
  then ["09:30"; "15:00"; "19:30"]
  else if neq dow 6
  then ["09:30"; "14:00"; "16:00"; "18:30"; "20:30"]
  else ["09:30"; "10:30"; "11:10"; "11:30"; "12:30"; "14:00"; "15:00"; "17:09";
        "18:30"; "20:30"].

(** The [Date] of local midnight on a day, given as its day number:
    what [new Date(year, month, day)] builds. *)
Definition local_day (day : Z) : date :=
  let '(y, m, d) := civil_from_days day in
  {| getFullYear := Some y; getMonth := Some (m - 1); getDate := Some d;
     getDay := Some (WeekDay day) |}.

(** ECMAScript MakeDay: months and days beyond their range carry over. *)
Definition MakeDay (year month day : Z) : Z :=
  days_from_civil (year + month / 12) (month mod 12 + 1) 1 + day - 1.

(** The fourteen days the calendar shows, from today on. *)
Definition dates (year month day : Z) : list date :=
  (λ offset, local_day (MakeDay year month (day + offset))) <$> seqZ 0 14.

(** [new Date(year, month, day, hours, minutes)]: the fields are read
    in local time, a year from 0 to 99 counts from 1900, and [utc]
    turns the local time value into the time value of the [Date]. *)
Definition new_Date_local (utc : Z → Z) (year month day hours minutes : num) : Date :=
  match year, month, day, hours, minutes with
  | Some y, Some m, Some dt, Some h, Some mi =>
      let yr := if bool_decide (0 ≤ y ≤ 99) then 1900 + y else y in
      TimeClip (Some (utc (MakeDay yr m dt * msPerDay + (h * 3600000 + mi * 60000))))
  | _, _, _, _, _ => NaN
  end.

(** [parseInt(parts[i], 10)], NaN when the piece is missing. *)
Definition piece (parts : list string) (i : nat) : num :=
  match parts !! i with
  | Some s => parseInt s
  | None => NaN
  end.

(** What a click on the button of [timeStr] under the date [d] writes
    into the hidden session field. *)
Definition sessionInput_value (utc : Z → Z) (d : date) (timeStr : string)
  : error + string :=
  let parts := split (λ c, Ascii.eqb c ":") timeStr in
  let eventDate :=
    new_Date_local utc (getFullYear d) (getMonth d) (getDate d)
      (piece parts 0) (piece parts 1) in
  toISOString eventDate.

(** *** Vocabulary of the properties *)

Definition weekdays : list string := ["15:00"; "18:30"; "20:30"].
Definition friday : list string := ["09:30"; "15:00"; "19:30"].
Definition saturday : list string := ["09:30"; "14:00"; "16:00"; "18:30"; "20:30"].
Definition sunday : list string :=
  ["09:30"; "10:30"; "11:10"; "11:30"; "12:30"; "14:00"; "15:00"; "17:09";
   "18:30"; "20:30"].

(** The one date with an extra slot: Saturday 23 August 2025. *)
Definition designated (d : date) : Prop :=
  getFullYear d = Some 2025 ∧ getMonth d = Some 7 ∧ getDate d = Some 23
  ∧ getDay d = Some 6.

(** The minutes after midnight a slot stands for. *)
Definition slot_minutes (timeStr : string) : num :=
  let parts := split (λ c, Ascii.eqb c ":") timeStr in
  match piece parts 0, piece parts 1 with
  | Some h, Some m => Some (60 * h + m)
  | _, _ => NaN
  end.

(** A slot reads as an hour from 0 to 23 and a minute from 0 to 59. *)
Definition time_of_day (timeStr : string) : Prop :=
  let parts := split (λ c, Ascii.eqb c ":") timeStr in
  ∃ h m, piece parts 0 = Some h ∧ piece parts 1 = Some m ∧ 0 ≤ h ≤ 23 ∧ 0 ≤ m ≤ 59.

(** Each slot of the list is later in the day than the one before. *)
Fixpoint later_and_later (slots : list string) : Prop :=
  match slots with
  | a :: (b :: _) as rest =>
      (∃ x y, slot_minutes a = Some x ∧ slot_minutes b = Some y ∧ x < y)
      ∧ later_and_later rest
  | _ => True
  end.

(** The dates of a list that fall on the day of the week [k]. *)
Definition falling_on (k : Z) (ds : list date) : list date :=
  filter (λ x, getDay x = Some k) ds.

End Script.

(** ** [server.js] *)
Module Server.
Import JS.

(** *** Data *)

(** A field of a parsed form ([querystring.parse]): a string, or the
    array of its values when the key is repeated. *)
Inductive value := VStr (s : string) | VArr (l : list string).

Definition truthy (v : value) : bool :=
  match v with
  | VStr s => negb (bool_decide (s = EmptyString))
  | VArr _ => true
  end.

(** [x || ''] for a field [x] that may be absent. *)
Definition or_empty (x : option value) : value :=
  match x with
  | Some v => if truthy v then v else VStr EmptyString
  | None => VStr EmptyString
  end.

(** [!x] for a field that may be absent. *)
Definition falsy (x : option value) : bool :=
  match x with Some v => negb (truthy v) | None => true end.

(** The string a value turns into inside a template or a constructor. *)
Definition ToString (v : value) : string :=
  match v with
  | VStr s => s
  | VArr l => String.concat "," l
  end.

#[local] Set Warnings "-register-all".
Inductive json :=
| JNull
| JBool (b : bool)
| JNum (literal : string)
| JStr (s : string)
| JArr (items : list json)
| JObj (members : list (string * json)).

Definition json_of (v : value) : json :=
  match v with
  | VStr s => JStr s
  | VArr l => JArr (JStr <$> l)
  end.

(** A JSON file on disk: absent or unreadable, holding text that
    [JSON.parse] rejects, or holding a value. *)
Inductive file (A : Type) := Unreadable | Corrupt | Stored (content : A).
Arguments Unreadable {A}.
Arguments Corrupt {A}.
Arguments Stored {A} content.

(** [JSON.parse(fs.readFileSync(f, 'utf8'))]: the value, or [None]
    when either call throws. *)
Definition parse_file {A} (f : file A) : option A :=
  match f with Stored a => Some a | _ => None end.

(** An entry of the tracking store. *)
Record view := {
  watched : Z;
  completed : bool;
  lastPing : option string
}.

(** The body of each mail is fixed markup around the values listed
    with its template; the markup itself is left out. *)
Inductive markup :=
| confirmationHtml (firstName : value) (joinLink : string)
| dayBeforeHtml (firstName : value) (eventDate : Date) (joinLink : string)
| fiveHoursHtml (firstName : value) (joinLink : string)
| oneHourHtml (firstName : value) (joinLink : string)
| halfHourHtml (firstName : value) (joinLink : string)
| afterHtml (firstName : value)
| adminHtml (firstName lastName email : value) (eventDate : Date)
    (airtableLink : option string).

Record mail := {
  to : value;
  subject : string;
  html : markup
}.

(** What the server does to the outside: hand a mail to the
    transporter, arm a timer that will send a mail, create a record in
    the contact ledger. *)
Inductive effect :=
| SendMail (m : mail)
| SetTimeout (m : mail) (delay : num)
| AirtableCreate (prenom nom email : value) (sessionISO : string).

Record response := {
  statusCode : Z;
  headers : list (string * string);
  body : string
}.

Record request := {
  method : string;
  (** [new URL(req.url, ...).pathname] *)
  url_pathname : string;
  req_headers : gmap string string;
  (** [querystring.parse] of the body *)
  form : gmap string value
}.

(** The process environment and the platform services whose answers
    the code depends on. *)
Record env := {
  (** [Date.parse]; NaN for a string it does not recognise *)
  Date_parse : string → num;
  (** the successive answers of [Date.now()] *)
  clock : nat → Z;
  (** [__dirname] *)
  dirname : string;
  (** [fs.readFile]: the data, or [None] when the read does not
      succeed *)
  readFile : string → option string;
  AIRTABLE_API_KEY : option string;
  AIRTABLE_BASE_ID : option string;
  APP_BASE_URL : option string;
  BASE_URL : option string;
  (** [new URL(input, base).href]; [None] when the constructor throws *)
  URL_href : string → string → option string;
  (** [new URL(input, base).pathname]; [None] when the constructor
      throws *)
  new_URL : string → string → option string;
  (** whether [fs.writeFileSync] can open the registration store, and
      the tracking store, for writing; it throws when it cannot (the
      path is a directory, the permission is missing) *)
  REG_FILE_writable : bool;
  VIEWS_FILE_writable : bool
}.

(** *** State and errors *)

Record world := {
  reg_file : file json;
  views_file : file (gmap string view);
  effects : list effect;
  ticks : nat
}.

(** A computation reads and updates the world and either returns or
    throws; what was done before a throw stays done. Nothing in the
    program catches what the handler throws: [serve], below, says what
    a throw does to the process. *)
Definition M (A : Type) : Type := world → (error + A) * world.

#[export] Instance M_ret : MRet M := λ A a w, (inr a, w).

#[export] Instance M_bind : MBind M := λ A B f m w,
  match m w with
  | (inr a, w') => f a w'
  | (inl e, w') => (inl e, w')
  end.

Definition throw {A} (e : error) : M A := λ w, (inl e, w).

Definition lift {A} (r : error + A) : M A := λ w, (r, w).

Definition emit (e : effect) : M unit := λ w,
  (inr (), {| reg_file := reg_file w; views_file := views_file w;
              effects := effects w ++ [e]; ticks := ticks w |}).

(** [Date.now()] *)
Definition Date_now (E : env) : M Z := λ w,
  (inr (clock E (ticks w)),
   {| reg_file := reg_file w; views_file := views_file w;
      effects := effects w; ticks := S (ticks w) |}).

Definition get_reg_file : M (file json) := λ w, (inr (reg_file w), w).

(** [fs.writeFileSync(REG_FILE, ...)]: the file is replaced, or the
    call throws and leaves it as it was. *)
Definition put_reg_file (E : env) (f : file json) : M unit := λ w,
  if REG_FILE_writable E
  then (inr (), {| reg_file := f; views_file := views_file w;
                   effects := effects w; ticks := ticks w |})
  else (inl SystemError, w).

Definition get_views_file : M (file (gmap string view)) := λ w, (inr (views_file w), w).

(** [fs.writeFileSync(VIEWS_FILE, ...)] *)
Definition put_views_file (E : env) (f : file (gmap string view)) : M unit := λ w,
  if VIEWS_FILE_writable E
  then (inr (), {| reg_file := reg_file w; views_file := f;
                   effects := effects w; ticks := ticks w |})
  else (inl SystemError, w).

(** *** Tracking storage *)

Definition readViews : M (gmap string view) :=
  f ← get_views_file;
  mret (default ∅ (parse_file f)).

Definition writeViews (E : env) (obj : gmap string view) : M unit :=
  put_views_file E (Stored obj).

(** *** The contact ledger *)

Definition is_set (x : option string) : bool :=
  match x with Some s => negb (bool_decide (s = EmptyString)) | None => false end.

(** [airtableBase] is non-null when both variables are set. *)
Definition airtableBase (E : env) : bool :=
  is_set (AIRTABLE_API_KEY E) && is_set (AIRTABLE_BASE_ID E).

Definition appendToAirtable (E : env) (prenom nom email : value) (sessionISO : string)
  : M unit :=
  if negb (airtableBase E) then mret ()
  else emit (AirtableCreate prenom nom email sessionISO).

(** *** Mail *)

Definition sendEmail (to : value) (subject : string) (html : markup) : M unit :=
  emit (SendMail {| to := to; subject := subject; html := html |}).

Definition setTimeout (m : mail) (delay : num) : M unit :=
  emit (SetTimeout m delay).

Definition scheduleEmail (E : env) (eventDate : Date) (offsetMs : Z)
    (to : value) (subject : string) (html : markup) : M unit :=
  let sendTime := new_Date (nadd (getTime eventDate) offsetMs) in
  now ← Date_now E;
  let delay := nsub (getTime sendTime) now in
  if nle delay 0
  then sendEmail to subject html
  else setTimeout {| to := to; subject := subject; html := html |} delay.

(** *** Static files *)

Definition getContentType (filePath : string) : string :=
  let ext := toLowerCase (extname filePath) in
  if bool_decide (ext = ".html") then "text/html; charset=utf-8"
  else if bool_decide (ext = ".css") then "text/css; charset=utf-8"
  else if bool_decide (ext = ".js") then "text/javascript; charset=utf-8"
  else if bool_decide (ext = ".json") then "application/json; charset=utf-8"
  else if bool_decide (ext = ".mp4") then "video/mp4"
  else if bool_decide (ext = ".png") then "image/png"
  else if bool_decide (ext = ".jpg") || bool_decide (ext = ".jpeg") then "image/jpeg"
  else "application/octet-stream".

(** The file [serveStatic] reads. *)
Definition fullPath (E : env) (filePath : string) : string :=
  join [dirname E; "public"; filePath].

(** A path that holds a NUL byte, which [fs.readFile] refuses with a
    TypeError thrown by the call itself. *)
Definition has_NUL (p : string) : bool :=
  bool_decide (Ascii.zero ∈ list_ascii_of_string p).

(** [readFile E p] is the data when the read succeeds. When it does
    not, the call has thrown if the path holds a NUL byte, and has
    handed an error to the callback otherwise. *)
Definition serveStatic (E : env) (filePath : string) : M response :=
  match readFile E (fullPath E filePath) with
  | None =>
      if has_NUL (fullPath E filePath) then throw TypeError
      else mret {| statusCode := 404; headers := []; body := "Fichier non trouvé" |}
  | Some data =>
      mret {| statusCode := 200;
              headers := [("Content-Type", getContentType (fullPath E filePath))];
              body := data |}
  end.

(** *** The registration form *)

Definition nonempty (x : option string) : option string :=
  match x with
  | Some s => if bool_decide (s = EmptyString) then None else Some s
  | None => None
  end.

Definition getBaseUrl (req : request) : string :=
  let proto := default "http" (nonempty (req_headers req !! "x-forwarded-proto")) in
  let host :=
    match nonempty (req_headers req !! "x-forwarded-host") with
    | Some h => h
    | None => default "undefined" (req_headers req !! "host")
    end in
  proto +:+ "://" +:+ host.

(** [process.env.APP_BASE_URL || process.env.BASE_URL || getBaseUrl(req)] *)
Definition baseUrl (E : env) (req : request) : string :=
  match nonempty (APP_BASE_URL E) with
  | Some u => u
  | None => default (getBaseUrl req) (nonempty (BASE_URL E))
  end.

(** The link to the class: [/masterclass.html] resolved against the
    base, with the session as its query. *)
Definition joinLink (E : env) (req : request) (sessionISO : string) : M string :=
  match URL_href E "/masterclass.html" (baseUrl E req) with
  | Some href => mret (href +:+ "?session=" +:+ urlencoded sessionISO)
  | None => throw TypeError
  end.

(** [new Date(session)] *)
Definition Date_of (E : env) (session : value) : Date :=
  TimeClip (Date_parse E (ToString session)).

(** [registrations.push(item)]: on [null] the property lookup throws
    before the argument is evaluated; on any other value that is not
    an array the argument is evaluated and the call then throws. *)
Definition push (registrations : json) (item : M json) : M json :=
  match registrations with
  | JNull => throw TypeError
  | JArr items => x ← item; mret (JArr (items ++ [x]))
  | _ => item;; throw TypeError
  end.

Definition registration (firstName lastName email : value) (sessionISO : string) : json :=
  JObj [("firstName", json_of firstName); ("lastName", json_of lastName);
        ("email", json_of email); ("session", JStr sessionISO)].

Definition confirmationSubject : string :=
  "✨ Ton voyage commence — Masterclass Accueillir l’Âme de ton enfant".
Definition dayBeforeSubject : string := "✨ C’est demain — ta Masterclass".
Definition fiveHoursSubject : string := "✨ C’est aujourd’hui — ta Masterclass".
Definition oneHourSubject : string :=
  "⏳ Dans 1 heure, nous ouvrons ensemble ce Portail vers l’Âme".
Definition halfHourSubject : string :=
  "🔔 Dans 30 minutes, nous commençons notre voyage sacré".
Definition afterSubject : string :=
  "💖 Merci… et un pas de plus vers toi et ton enfant".
Definition adminSubject : string := "Nouvelle inscription à la masterclass".

Definition operators : value := VStr "bruno.chazreaud@gmail.com, laurmerel@gmail.com".

(** The callback run once the body of a POST /register has arrived. *)
Definition register (E : env) (req : request) : M response :=
  let data := form req in
  let firstName := or_empty (data !! "firstName") in
  let lastName := or_empty (data !! "lastName") in
  let email := or_empty (data !! "email") in
  let session := or_empty (data !! "session") in
  let consent := data !! "consent" in
  if negb (truthy firstName) || negb (truthy email) || negb (truthy session)
     || falsy consent
  then mret {| statusCode := 400; headers := [];
               body := "Merci de remplir tous les champs requis et d’accepter la politique d’e‑mail." |}
  else
    let eventDate := Date_of E session in
    f ← get_reg_file;
    let registrations := default (JArr []) (parse_file f) in
    registrations ← push registrations
      (iso ← lift (toISOString eventDate);
       mret (registration firstName lastName email iso));
    put_reg_file E (Stored registrations);;
    iso ← lift (toISOString eventDate);
    appendToAirtable E firstName lastName email iso;;
    joinLink ← joinLink E req iso;
    sendEmail email confirmationSubject (confirmationHtml firstName joinLink);;
    scheduleEmail E eventDate (-24 * 60 * 60 * 1000) email dayBeforeSubject
      (dayBeforeHtml firstName eventDate joinLink);;
    scheduleEmail E eventDate (-5 * 60 * 60 * 1000) email fiveHoursSubject
      (fiveHoursHtml firstName joinLink);;
    scheduleEmail E eventDate (-1 * 60 * 60 * 1000) email oneHourSubject
      (oneHourHtml firstName joinLink);;
    (* -0.5 * 60 * 60 * 1000 *)
    scheduleEmail E eventDate (-1800000) email halfHourSubject
      (halfHourHtml firstName joinLink);;
    scheduleEmail E eventDate (1 * 60 * 60 * 1000) email afterSubject
      (afterHtml firstName);;
    let airtableLink :=
      (λ id, "https://airtable.com/" +:+ id) <$> nonempty (AIRTABLE_BASE_ID E) in
    sendEmail operators adminSubject
      (adminHtml firstName lastName email eventDate airtableLink);;
    mret {| statusCode := 302;
            headers := [("Location",
                         "/confirm.html?name=" +:+ encodeURIComponent (ToString firstName)
                           +:+ "&date=" +:+ encodeURIComponent iso)];
            body := EmptyString |}.

(** *** The tracking endpoints *)

(** [x | 0]: the integer part of a number wrapped to 32 bits, 0 for
    NaN. *)
Definition ToInt32 (x : num) : Z :=
  match x with
  | Some z => (z + 2 ^ 31) mod 2 ^ 32 - 2 ^ 31
  | None => 0
  end.

Definition no_content : response :=
  {| statusCode := 204; headers := []; body := EmptyString |}.

(** The names every object inherits from [Object.prototype]. *)
Definition Object_prototype : list string :=
  ["constructor"; "__defineGetter__"; "__defineSetter__"; "hasOwnProperty";
   "__lookupGetter__"; "__lookupSetter__"; "isPrototypeOf"; "propertyIsEnumerable";
   "toString"; "valueOf"; "__proto__"; "toLocaleString"].

(** [db[token]] finds a built-in and not an entry: the store has no
    entry of that name and the name is one every object inherits. *)
Definition inherited (db : gmap string view) (token : string) : bool :=
  bool_decide (db !! token = None) && bool_decide (token ∈ Object_prototype).

(** [db[token] = cur], as [JSON.stringify] then writes [db]. When
    [db[token]] found a built-in, [cur] is that built-in: the members
    were set on it, the assignment puts a function into [db] (or, for
    [__proto__], sets the prototype [db] already has), and the text
    written has no member for the token. *)
Definition assign (db : gmap string view) (token : string) (cur : view)
  : gmap string view :=
  if inherited db token then db else <[token := cur]> db.

(** The block for POST /track and POST /track-complete, as written.
    [token] is [String(body.token || '').trim()] and [watchedSeconds]
    the integer part of [Number(body.watchedSeconds || 0)], NaN when
    that number is NaN or infinite; the body is an object. The store
    is absent, unreadable, not JSON, or an object whose members are
    entries with the three members the block writes. *)
Definition tracking (E : env) (pathname token : string) (watchedSeconds : num)
  : M response :=
  db ← readViews;
  let cur := default {| watched := 0; completed := false; lastPing := None |}
               (db !! token) in
  if bool_decide (pathname = "/track") then
    let w := ToInt32 watchedSeconds in
    (if bool_decide (token = EmptyString) then mret ()
     else
       now ← Date_now E;
       writeViews E (assign db token {| watched := Z.max (watched cur) w;
                                        completed := completed cur;
                                        lastPing := Some (iso_string now) |}));;
    mret no_content
  else
    (if bool_decide (token = EmptyString) then mret ()
     else
       now ← Date_now E;
       writeViews E (assign db token {| watched := watched cur;
                                        completed := true;
                                        lastPing := Some (iso_string now) |}));;
    mret no_content.

(** *** The request handler *)

(** The file a GET asks for. *)
Definition filePath (pathname : string) : string :=
  if bool_decide (pathname = "/") || bool_decide (pathname = EmptyString)
  then "index.html"
  else if startsWith pathname "/" then slice1 pathname
  else pathname.

(** The handler given to [http.createServer], from its second line
    on: [req] carries the path of the URL its first line has built
    ([requestListener], below, is the handler with that line). The
    branch for POST /register returns once its callbacks are
    installed; the blocks for the tracking endpoints and for GET
    /admin/views are written after that [return], inside the same
    branch, and no request reaches them. *)
Definition server (E : env) (req : request) : M response :=
  pathname ← lift (decodeURIComponent (url_pathname req));
  if bool_decide (method req = "POST") && bool_decide (pathname = "/register")
  then register E req
  else if bool_decide (method req = "GET")
  then serveStatic E (filePath pathname)
  else mret {| statusCode := 404; headers := []; body := "Page non trouvée" |}.

(** *** The listener and the process *)

(** A request as Node hands it to the listener: the method, the
    request target, the headers and the form its body parses to. *)
Record message := {
  msg_method : string;
  msg_url : string;
  msg_headers : gmap string string;
  msg_form : gmap string value
}.

(** [new URL(req.url, `http://${req.headers.host}`)]: the request with
    the path of that URL, when the constructor accepts the two. *)
Definition request_of (E : env) (msg : message) : option request :=
  (λ pathname, {| method := msg_method msg; url_pathname := pathname;
                  req_headers := msg_headers msg; form := msg_form msg |})
  <$> new_URL E (msg_url msg)
        ("http://" +:+ default "undefined" (msg_headers msg !! "host")).

(** The whole handler: the URL is built, then the request is routed. *)
Definition requestListener (E : env) (msg : message) : M response :=
  match request_of E msg with
  | Some req => server E req
  | None => throw TypeError
  end.

(** The Node process. The program installs no handler for uncaught
    exceptions or rejections and wraps no call of the listener: when
    the listener throws, the process ends. *)
Inductive process := Running (w : world) | Exited (w : world).

Definition serve (E : env) (msg : message) (p : process) : process :=
  match p with
  | Running w =>
      match requestListener E msg w with
      | (inr _, w') => Running w'
      | (inl _, w') => Exited w'
      end
  | Exited w => Exited w
  end.

(** The timers of an effect log. *)
Definition timers (es : list effect) : list (mail * num) :=
  omap (λ e, match e with SetTimeout m delay => Some (m, delay) | _ => None end) es.

(** The timers the process still holds: those armed while it runs,
    none once it has ended. *)
Definition held (p : process) : list (mail * num) :=
  match p with
  | Running w => timers (effects w)
  | Exited _ => []
  end.

(** *** Vocabulary of the properties *)

(** The reminder job for one offset, seen from outside: the mail is
    handed over at once when its send time is not after [now],
    otherwise a timer is armed for the remaining delay. *)
Definition job (now : Z) (eventDate : Date) (offsetMs : Z) (m : mail) : effect :=
  let delay := nsub (getTime (new_Date (nadd (getTime eventDate) offsetMs))) now in
  if nle delay 0 then SendMail m else SetTimeout m delay.

(** A required field is missing: absent from the form, or empty. *)
Definition missing (req : request) (field : string) : Prop :=
  form req !! field = None ∨ form req !! field = Some (VStr EmptyString).

(** The request is a POST to /register. *)
Definition posts_register (req : request) : Prop :=
  method req = "POST" ∧ decodeURIComponent (url_pathname req) = inr "/register".

(** The four required fields are present. *)
Definition complete (req : request) : Prop :=
  ¬ missing req "firstName" ∧ ¬ missing req "email" ∧ ¬ missing req "session"
  ∧ ¬ missing req "consent".

(** The world after a computation, and what it returned or threw. *)
Definition after {A} (m : M A) (w : world) : world := (m w).2.
Definition outcome {A} (m : M A) (w : world) : error + A := (m w).1.

(** A field of the form as the handler reads it. *)
Definition field (req : request) (k : string) : value := or_empty (form req !! k).

(** The answer to a form with a required field missing. *)
Definition rejection : response :=
  {| statusCode := 400; headers := [];
     body := "Merci de remplir tous les champs requis et d’accepter la politique d’e‑mail." |}.

(** The answer to an accepted form. *)
Definition redirect (req : request) (t : Z) : response :=
  {| statusCode := 302;
     headers := [("Location",
                  "/confirm.html?name=" +:+ encodeURIComponent (ToString (field req "firstName"))
                    +:+ "&date=" +:+ encodeURIComponent (iso_string t))];
     body := EmptyString |}.

Definition not_found : response :=
  {| statusCode := 404; headers := []; body := "Page non trouvée" |}.

(** The record persisted for an accepted form whose session is the
    time value [t]. *)
Definition entry (req : request) (t : Z) : json :=
  registration (field req "firstName") (field req "lastName") (field req "email")
    (iso_string t).

Definition link (href : string) (t : Z) : string :=
  href +:+ "?session=" +:+ urlencoded (iso_string t).

Definition confirmation (req : request) (joinLink : string) : mail :=
  {| to := field req "email"; subject := confirmationSubject;
     html := confirmationHtml (field req "firstName") joinLink |}.

(** The five reminders, each with its offset from the session, in
    milliseconds. *)
Definition reminders (req : request) (eventDate : Date) (joinLink : string)
  : list (Z * mail) :=
  let firstName := field req "firstName" in
  let email := field req "email" in
  [(-86400000, {| to := email; subject := dayBeforeSubject;
                  html := dayBeforeHtml firstName eventDate joinLink |});
   (-18000000, {| to := email; subject := fiveHoursSubject;
                  html := fiveHoursHtml firstName joinLink |});
   (-3600000, {| to := email; subject := oneHourSubject;
                 html := oneHourHtml firstName joinLink |});
   (-1800000, {| to := email; subject := halfHourSubject;
                 html := halfHourHtml firstName joinLink |});
   (3600000, {| to := email; subject := afterSubject;
                html := afterHtml firstName |})].

(** -24 h, -5 h, -1 h, -30 min and +1 h. *)
Definition offsets : list Z := [-86400000; -18000000; -3600000; -1800000; 3600000].

Definition notice (E : env) (req : request) (eventDate : Date) : mail :=
  {| to := operators; subject := adminSubject;
     html := adminHtml (field req "firstName") (field req "lastName")
               (field req "email") eventDate
               ((λ id, "https://airtable.com/" +:+ id) <$> nonempty (AIRTABLE_BASE_ID E)) |}.

(** The call to the contact ledger, made when it is configured. *)
Definition ledger (E : env) (req : request) (t : Z) : list effect :=
  if airtableBase E
  then [AirtableCreate (field req "firstName") (field req "lastName")
          (field req "email") (iso_string t)]
  else [].

(** The jobs of a list of reminders, the first one reading the clock
    at [tick], each next one at the following tick. *)
Definition jobs (E : env) (tick : nat) (eventDate : Date) (rs : list (Z * mail))
  : list effect :=
  imap (λ i r, job (clock E (tick + i)) eventDate r.1 r.2) rs.

(** An effect that sends mail or arms a timer. *)
Definition notifies (e : effect) : Prop :=
  match e with
  | SendMail _ | SetTimeout _ _ => True
  | AirtableCreate _ _ _ _ => False
  end.

(** The list the handler takes the registration store to hold: the
    one in the file, or the empty one when the file cannot be read or
    parsed; [None] when the file holds a value that is not a list. *)
Definition stored_list (f : file json) : option (list json) :=
  match f with
  | Stored (JArr items) => Some items
  | Stored _ => None
  | _ => Some []
  end.

(** The member [k] of a JSON object. *)
Fixpoint lookup_member (k : string) (ms : list (string * json)) : option json :=
  match ms with
  | [] => None
  | (k', v) :: ms' => if String.eqb k' k then Some v else lookup_member k ms'
  end.

Definition member (k : string) (j : json) : option json :=
  match j with JObj ms => lookup_member k ms | _ => None end.

(** The world once the clock was read and one effect performed. *)
Definition stamped (w : world) (e : effect) : world :=
  {| reg_file := reg_file w; views_file := views_file w;
     effects := effects w ++ [e]; ticks := S (ticks w) |}.

(** A byte that stands for itself in a URL component, or the percent
    sign of an escape. *)
Definition uri_safe (c : ascii) : bool :=
  is_alnum c || one_of "-_.!~*'()%" c.

(** A mail is sent at once or a timer is armed for it. *)
Definition concerns (m : mail) (e : effect) : Prop :=
  e = SendMail m ∨ ∃ delay, e = SetTimeout m delay.

(** The world after a series of pings on /track for one token, each
    reporting a number of seconds. *)
Definition pings (E : env) (token : string) (reports : list num) (w : world) : world :=
  fold_left (λ w n, after (tracking E "/track" token n) w) reports w.

(** The extensions [getContentType] knows, with their types. *)
Definition content_types : list (string * string) :=
  [(".html", "text/html; charset=utf-8"); (".css", "text/css; charset=utf-8");
   (".js", "text/javascript; charset=utf-8"); (".json", "application/json; charset=utf-8");
   (".mp4", "video/mp4"); (".png", "image/png"); (".jpg", "image/jpeg");
   (".jpeg", "image/jpeg")].

(** The earliest time a timer armed at [now] fires: the timer is
    due then, and Node runs it at that time or later. *)
Definition fires_at (now : Z) (delay : num) : Z := now + timer_after delay.

(** The message is a POST to /register. *)
Definition posts_to_register (E : env) (msg : message) : Prop :=
  ∃ req, request_of E msg = Some req ∧ posts_register req.

(** The answer of the handler to a request that is neither a POST to
    /register nor a GET: the fallback, when the URL is built and its
    path decoded. *)
Definition fallback (E : env) (msg : message) : error + response :=
  match request_of E msg with
  | None => inl TypeError
  | Some req =>
      match decodeURIComponent (url_pathname req) with
      | inl e => inl e
      | inr _ => inr not_found
      end
  end.

(** The record of a registration, member by member. *)
Definition record (firstName lastName email : value) (session : string) : json :=
  JObj [("firstName", json_of firstName); ("lastName", json_of lastName);
        ("email", json_of email); ("session", JStr session)].

(** *** Reading an absolute ISO 8601 date-time *)

(** [k] decimal digits at the head of [s]: the number they write after
    [acc], and what follows them. *)
Fixpoint read_digits (k : nat) (s : list ascii) (acc : Z) : option (Z * list ascii) :=
  match k, s with
  | O, _ => Some (acc, s)
  | S k', c :: s' =>
      if bool_decide (48 ≤ code c ≤ 57) then read_digits k' s' (10 * acc + (code c - 48))
      else None
  | S _, [] => None
  end.

Definition expect (c : ascii) (s : list ascii) : option (list ascii) :=
  match s with
  | c' :: s' => if Ascii.eqb c' c then Some s' else None
  | [] => None
  end.

(** A year: four digits, or a sign and six digits. *)
Definition read_year (s : list ascii) : option (Z * list ascii) :=
  match s with
  | c :: s' =>
      if Ascii.eqb c "+" then read_digits 6 s' 0
      else if Ascii.eqb c "-" then '(y, rest) ← read_digits 6 s' 0; Some (- y, rest)
      else read_digits 4 s 0
  | [] => None
  end.

(** The instant a text of the form YYYY-MM-DDTHH:mm:ss.sssZ names: a
    date of the Gregorian calendar and a time of day, in UTC, as
    milliseconds from 1970-01-01T00:00:00.000Z. [None] for a text of
    another form or one that names no date or time. *)
Definition iso_8601_instant (str : string) : option Z :=
  '(y, s) ← read_year (list_ascii_of_string str);
  s ← expect "-" s; '(m, s) ← read_digits 2 s 0;
  s ← expect "-" s; '(d, s) ← read_digits 2 s 0;
  s ← expect "T" s; '(hh, s) ← read_digits 2 s 0;
  s ← expect ":" s; '(mm, s) ← read_digits 2 s 0;
  s ← expect ":" s; '(ss, s) ← read_digits 2 s 0;
  s ← expect "." s; '(ms, s) ← read_digits 3 s 0;
  s ← expect "Z" s;
  if bool_decide (s = []) && bool_decide (1 ≤ m ≤ 12) && bool_decide (1 ≤ d)
     && bool_decide (civil_from_days (days_from_civil y m d) = (y, m, d))
     && bool_decide (hh ≤ 23) && bool_decide (mm ≤ 59) && bool_decide (ss ≤ 59)
  then Some (days_from_civil y m d * msPerDay + hh * 3600000 + mm * 60000
             + ss * 1000 + ms)
  else None.

End Server.

(** ** A concrete deployment

    An environment, a world and some requests on which the definitions
    above are evaluated. *)
Module Deployment.
Import JS Server.

(** 2025-08-01T00:00:00.000Z *)
Definition started : Z := 1754006400000.

(** The answers of the URL constructor to the requests of this
    deployment: under its own host a target that starts with one
    slash has the path [URL_pathname] gives; a target that starts
    with two slashes has no host, and an empty Host header leaves the
    base without one, and the constructor throws. Targets of other
    forms and other hosts do not occur here and are left out. *)
Definition parsed_path (input base : string) : option string :=
  if bool_decide (base = "http://masterclass.example")
     && String.prefix "/" input && negb (String.prefix "//" input)
     && negb (String.prefix "/\" input)
  then Some (URL_pathname input)
  else None.

Definition env0 : env :=
  {| Date_parse := parse_iso;
     clock := λ n, started + Z.of_nat n;
     dirname := "/srv/app";
     readFile := λ p,
       if bool_decide (p = "/srv/app/public/index.html") then Some "<!doctype html>"
       else if bool_decide (p = "/srv/app/server.js") then Some "const http = require('http');"
       else if bool_decide (p = "/srv/app/registrations.json") then Some "[]"
       else None;
     AIRTABLE_API_KEY := None;
     AIRTABLE_BASE_ID := None;
     APP_BASE_URL := Some "https://masterclass.example";
     BASE_URL := None;
     URL_href := λ input base, Some (base +:+ input);
     new_URL := parsed_path;
     REG_FILE_writable := true;
     VIEWS_FILE_writable := true |}.

Definition world0 : world :=
  {| reg_file := Stored (JArr []); views_file := Stored ∅; effects := []; ticks := 0 |}.

Definition post (pathname : string) (fields : list (string * value)) : request :=
  {| method := "POST"; url_pathname := URL_pathname pathname;
     req_headers := {[ "host" := "masterclass.example" ]};
     form := list_to_map fields |}.

Definition get (target : string) : request :=
  {| method := "GET"; url_pathname := URL_pathname target;
     req_headers := {[ "host" := "masterclass.example" ]};
     form := ∅ |}.

Definition reminder : mail :=
  {| to := VStr "ada@example.org"; subject := dayBeforeSubject;
     html := dayBeforeHtml (VStr "Ada") (Some (started + 30 * msPerDay))
               "https://masterclass.example/masterclass.html" |}.

Definition ada : request :=
  post "/register"
    [("firstName", VStr "Ada"); ("lastName", VStr "Lovelace");
     ("email", VStr "ada@example.org"); ("session", VStr "2025-08-23T16:00:00.000Z");
     ("consent", VStr "on")].

(** The same form with the consent box left unticked. *)
Definition no_consent : request :=
  post "/register"
    [("firstName", VStr "Ada"); ("lastName", VStr "Lovelace");
     ("email", VStr "ada@example.org"); ("session", VStr "2025-08-23T16:00:00.000Z")].

(** The same form with a session that is not a timestamp. *)
Definition vague : request :=
  post "/register"
    [("firstName", VStr "Ada"); ("lastName", VStr "Lovelace");
     ("email", VStr "ada@example.org"); ("session", VStr "next saturday");
     ("consent", VStr "on")].

(** 2025-08-23T16:00:00.000Z *)
Definition session : Z := 1755964800000.

(** The link mailed for that session. *)
Definition join_link : string :=
  link "https://masterclass.example/masterclass.html" session.

(** A world whose two stores hold text that is not JSON. *)
Definition damaged : world :=
  {| reg_file := Corrupt; views_file := Corrupt; effects := []; ticks := 0 |}.

(** A deployment whose base URL was set without a scheme, which the
    URL constructor refuses. *)
Definition env_no_scheme : env :=
  {| Date_parse := parse_iso;
     clock := λ n, started + Z.of_nat n;
     dirname := "/srv/app";
     readFile := readFile env0;
     AIRTABLE_API_KEY := None;
     AIRTABLE_BASE_ID := None;
     APP_BASE_URL := Some "masterclass.example";
     BASE_URL := None;
     URL_href := λ input base,
       if String.prefix "http" base then Some (base +:+ input) else None;
     new_URL := parsed_path;
     REG_FILE_writable := true;
     VIEWS_FILE_writable := true |}.

(** A deployment started an hour and more after the session of [ada]. *)
Definition env_late : env :=
  {| Date_parse := parse_iso;
     clock := λ n, session + 3600000 + Z.of_nat n;
     dirname := "/srv/app";
     readFile := readFile env0;
     AIRTABLE_API_KEY := None;
     AIRTABLE_BASE_ID := None;
     APP_BASE_URL := Some "https://masterclass.example";
     BASE_URL := None;
     URL_href := λ input base, Some (base +:+ input);
     new_URL := parsed_path;
     REG_FILE_writable := true;
     VIEWS_FILE_writable := true |}.

(** A second registrant, for another session. *)
Definition grace : request :=
  post "/register"
    [("firstName", VStr "Grace"); ("email", VStr "grace@example.org");
     ("session", VStr "2025-08-22T09:30:00.000Z"); ("consent", VStr "on")].

(** 2025-08-22T09:30:00.000Z *)
Definition session_grace : Z := 1755855000000.

(** A tracking store with one token. *)
Definition tracked : world :=
  {| reg_file := Stored (JArr []);
     views_file := Stored {[ "tok" := {| watched := 120; completed := false;
                                         lastPing := None |} ]};
     effects := []; ticks := 0 |}.

(** A deployment behind a proxy, with no base URL of its own: the
    base of the link is made from the forwarded headers. The URL
    constructor refuses a base whose host holds a space. *)
Definition env_proxied : env :=
  {| Date_parse := parse_iso;
     clock := λ n, started + Z.of_nat n;
     dirname := "/srv/app";
     readFile := readFile env0;
     AIRTABLE_API_KEY := None;
     AIRTABLE_BASE_ID := None;
     APP_BASE_URL := None;
     BASE_URL := None;
     URL_href := λ input base,
       if bool_decide (" "%char ∈ list_ascii_of_string base) then None
       else Some (base +:+ input);
     new_URL := parsed_path;
     REG_FILE_writable := true;
     VIEWS_FILE_writable := true |}.

(** The form of [ada], sent with a forwarded host that is no host
    name. *)
Definition ada_forwarded : request :=
  {| method := "POST"; url_pathname := "/register";
     req_headers := {[ "host" := "masterclass.example"; "x-forwarded-host" := "a b" ]};
     form := form ada |}.

(** A deployment whose registration store cannot be opened for
    writing: [registrations.json] is a directory. *)
Definition env_locked : env :=
  {| Date_parse := parse_iso;
     clock := λ n, started + Z.of_nat n;
     dirname := "/srv/app";
     readFile := readFile env0;
     AIRTABLE_API_KEY := None;
     AIRTABLE_BASE_ID := None;
     APP_BASE_URL := Some "https://masterclass.example";
     BASE_URL := None;
     URL_href := λ input base, Some (base +:+ input);
     new_URL := parsed_path;
     REG_FILE_writable := false;
     VIEWS_FILE_writable := true |}.

(** The world of that deployment: the store cannot be read either. *)
Definition locked : world :=
  {| reg_file := Unreadable; views_file := Stored ∅; effects := []; ticks := 0 |}.

(** A world whose registration store holds [null]. *)
Definition nulled : world :=
  {| reg_file := Stored JNull; views_file := Stored ∅; effects := []; ticks := 0 |}.

(** A world in which [grace] is registered already. *)
Definition enrolled : world :=
  {| reg_file :=
       Stored (JArr [record (VStr "Grace") (VStr "") (VStr "grace@example.org")
                       "2025-08-22T09:30:00.000Z"]);
     views_file := Stored ∅; effects := []; ticks := 0 |}.

(** The messages of some requests. *)
Definition incoming (verb target : string) (fields : list (string * value)) : message :=
  {| msg_method := verb; msg_url := target;
     msg_headers := {[ "host" := "masterclass.example" ]};
     msg_form := list_to_map fields |}.

(** The form of [vague] as it arrives. *)
Definition vague_message : message :=
  incoming "POST" "/register"
    [("firstName", VStr "Ada"); ("lastName", VStr "Lovelace");
     ("email", VStr "ada@example.org"); ("session", VStr "next saturday");
     ("consent", VStr "on")].

(** A session at the earliest time value, -271821-04-20T00:00:00.000Z. *)
Definition earliest : Z := - maxTime.

(** The form of [ada] with that session. *)
Definition ancient : request :=
  {| method := "POST"; url_pathname := "/register";
     req_headers := {[ "host" := "masterclass.example" ]};
     form := <[ "session" := VStr "-271821-04-20T00:00:00.000Z" ]> (form ada) |}.

(** A deployment whose engine reads that session. *)
Definition env_ancient : env :=
  {| Date_parse := λ s,
       if bool_decide (s = "-271821-04-20T00:00:00.000Z") then Some earliest
       else parse_iso s;
     clock := λ n, started + Z.of_nat n;
     dirname := "/srv/app";
     readFile := readFile env0;
     AIRTABLE_API_KEY := None;
     AIRTABLE_BASE_ID := None;
     APP_BASE_URL := Some "https://masterclass.example";
     BASE_URL := None;
     URL_href := λ input base, Some (base +:+ input);
     new_URL := parsed_path;
     REG_FILE_writable := true;
     VIEWS_FILE_writable := true |}.

(** A form whose first name holds a line break, a header and a
    parameter. *)
Definition mallory : request :=
  post "/register"
    [("firstName", VStr ("x" +:+ String "013" (String "010" "Set-Cookie: a=b&date=1")));
     ("email", VStr "mallory@example.org"); ("session", VStr "2025-08-23T16:00:00.000Z");
     ("consent", VStr "on")].

(** The world once [ada] is registered: her five reminders are armed. *)
Definition busy : world := after (server env0 ada) world0.

End Deployment.

Import JS Script Server.

Example iso_string_epoch : JS.iso_string 0 = "1970-01-01T00:00:00.000Z".
Proof. reflexivity. Qed.

Example iso_string_started : JS.iso_string Deployment.started = "2025-08-01T00:00:00.000Z".
Proof. vm_compute. reflexivity. Qed.

Example iso_string_2025 : JS.iso_string 1755964800000 = "2025-08-23T16:00:00.000Z".
Proof. vm_compute. reflexivity. Qed.

Example parse_iso_of_iso_string :
  JS.parse_iso (JS.iso_string Deployment.session) = Some Deployment.session.
Proof. vm_compute. reflexivity. Qed.

Example parse_iso_rejects : JS.parse_iso "next saturday" = JS.NaN.
Proof. vm_compute. reflexivity. Qed.

Example decode_slash : JS.decodeURIComponent "/..%2fserver.js" = inr "/../server.js".
Proof. vm_compute. reflexivity. Qed.
Example decode_bad : JS.decodeURIComponent "/%E0%A4%A" = inl JS.URIError.
Proof. vm_compute. reflexivity. Qed.
Example decode_bad2 : JS.decodeURIComponent "/%C0%AF" = inl JS.URIError.
Proof. vm_compute. reflexivity. Qed.
Example url1 : JS.URL_pathname "/a/../b/./c/%2e%2E/d?x=/../#" = "/b/d".
Proof. vm_compute. reflexivity. Qed.
Example url2 : JS.URL_pathname "/..%2fserver.js" = "/..%2fserver.js".
Proof. vm_compute. reflexivity. Qed.
Example url3 : JS.URL_pathname "/a/.." = "/".
Proof. vm_compute. reflexivity. Qed.
Example url4 : JS.URL_pathname "/" = "/".
Proof. vm_compute. reflexivity. Qed.
Example url5 : JS.URL_pathname "/a b/" = "/a%20b/".
Proof. vm_compute. reflexivity. Qed.
Example join1 : JS.join ["/srv/app"; "public"; "../server.js"] = "/srv/app/server.js".
Proof. vm_compute. reflexivity. Qed.
Example join2 : JS.join ["/srv/app"; "public"; "a//b/./c/"] = "/srv/app/public/a/b/c/".
Proof. vm_compute. reflexivity. Qed.
Example join3 : JS.join ["/srv/app"; "public"; "../../../../../etc/passwd"] = "/etc/passwd".
Proof. vm_compute. reflexivity. Qed.
Example ext1 : JS.extname "/srv/app/public/index.HTML" = ".HTML".
Proof. vm_compute. reflexivity. Qed.
Example ext2 : JS.extname "/srv/app/public/.env" = "".
Proof. vm_compute. reflexivity. Qed.
Example ext3 : JS.extname "/srv/app/public/a.b/" = ".b".
Proof. vm_compute. reflexivity. Qed.
Example enc1 : JS.encodeURIComponent "a b:é" = "a%20b%3A%C3%A9".
Proof. vm_compute. reflexivity. Qed.

(** ** Dates and their text *)
Section Platform.

Lemma list_ascii_of_string_app a b :
  list_ascii_of_string (a +:+ b) = list_ascii_of_string a ++ list_ascii_of_string b.
Proof. induction a as [|x a IH]; simpl; [reflexivity | rewrite IH; reflexivity]. Qed.

Lemma civil_ranges n :
  let '(y, m, d) := civil_from_days n in 1 ≤ m ≤ 12 ∧ 1 ≤ d ≤ 31 ∧ (0 ≤ n → 1970 ≤ y).
Proof.
  unfold civil_from_days. cbv zeta.
  repeat case_bool_decide; Z.div_mod_to_equations; lia.
Qed.

(** A day number is the day number of its own calendar date. *)
Lemma days_from_civil_of_civil n :
  let '(y, m, d) := civil_from_days n in days_from_civil y m d = n.
Proof.
  unfold civil_from_days, days_from_civil. cbv zeta.
  repeat case_bool_decide; Z.div_mod_to_equations; lia.
Qed.

(** The years of the time values fit in six digits. *)
Lemma civil_year_range n :
  Z.abs n ≤ 100000000 →
  let '(y, m, d) := civil_from_days n in -999999 ≤ y ≤ 999999.
Proof.
  intros Hn. unfold civil_from_days. cbv zeta.
  repeat case_bool_decide; Z.div_mod_to_equations; lia.
Qed.

Lemma code_digit n : code (digit n) = 48 + n mod 10.
Proof.
  pose proof (Z.mod_pos_bound n 10 ltac:(lia)) as Hn.
  unfold code, digit. rewrite N_ascii_embedding by lia. lia.
Qed.

(** A digit is not a sign. *)
Lemma digit_is_no_sign n c : code c < 48 → Ascii.eqb (digit n) c = false.
Proof.
  intros Hc. apply Ascii.eqb_neq. intros Heq. rewrite <- Heq, code_digit in Hc.
  pose proof (Z.mod_pos_bound n 10 ltac:(lia)). lia.
Qed.

(** The first of [k + 1] digits is the digit of the power [k]. *)
Lemma digits_head k : ∀ n,
  digits (S k) n = String (digit (n / 10 ^ Z.of_nat k)) (digits k n).
Proof.
  induction k as [|k IH]; intros n.
  - cbn [digits]. rewrite Z.pow_0_r, Z.div_1_r. reflexivity.
  - change (digits (S (S k)) n) with (digits (S k) (n / 10) +:+ String (digit n) EmptyString).
    rewrite IH. rewrite Z.div_div by lia.
    replace (10 * 10 ^ Z.of_nat k) with (10 ^ Z.of_nat (S k))
      by (rewrite Nat2Z.inj_succ, Z.pow_succ_r by lia; reflexivity).
    reflexivity.
Qed.

(** Reading back the digits [digits] has written. *)
Lemma read_digits_digits k : ∀ n rest acc,
  read_digits k (list_ascii_of_string (digits k n) ++ rest) acc =
    Some (acc * 10 ^ Z.of_nat k + n mod 10 ^ Z.of_nat k, rest).
Proof.
  induction k as [|k IH]; intros n rest acc.
  - cbn [digits list_ascii_of_string app read_digits]. rewrite Z.pow_0_r, Z.mod_1_r.
    do 2 f_equal. lia.
  - rewrite digits_head. cbn [list_ascii_of_string app read_digits].
    rewrite code_digit.
    pose proof (Z.mod_pos_bound (n / 10 ^ Z.of_nat k) 10 ltac:(lia)) as Hd.
    rewrite bool_decide_true by lia. rewrite IH. do 2 f_equal.
    rewrite Nat2Z.inj_succ, Z.pow_succ_r by lia.
    assert (Hp : 0 < 10 ^ Z.of_nat k) by (apply Z.pow_pos_nonneg; lia).
    rewrite (Z.mul_comm 10 (10 ^ Z.of_nat k)), Z.rem_mul_r by lia. ring.
Qed.

Lemma read_digits_small k n rest :
  0 ≤ n < 10 ^ Z.of_nat k →
  read_digits k (list_ascii_of_string (digits k n) ++ rest) 0 = Some (n, rest).
Proof.
  intros Hn. rewrite read_digits_digits, Z.mod_small by exact Hn. reflexivity.
Qed.

Lemma read_year_string y rest :
  -999999 ≤ y ≤ 999999 →
  read_year (list_ascii_of_string (year_string y) ++ rest) = Some (y, rest).
Proof.
  intros Hy. unfold year_string. case_bool_decide as Hsmall.
  - assert (Hhead : ∃ tail, list_ascii_of_string (digits 4 y) ++ rest =
                            digit (y / 10 ^ Z.of_nat 3) :: tail).
    { rewrite digits_head. eexists. reflexivity. }
    destruct Hhead as [tail Hhead]. unfold read_year. rewrite Hhead.
    rewrite !digit_is_no_sign by (vm_compute; reflexivity).
    rewrite <- Hhead. apply read_digits_small. change (10 ^ Z.of_nat 4) with 10000. lia.
  - case_bool_decide as Hneg.
    + change (read_year ("-"%char :: list_ascii_of_string (digits 6 (Z.abs y)) ++ rest) =
              Some (y, rest)).
      unfold read_year. cbn [Ascii.eqb Bool.eqb]. 
      rewrite read_digits_small by (change (10 ^ Z.of_nat 6) with 1000000; lia).
      cbn. do 2 f_equal. lia.
    + change (read_year ("+"%char :: list_ascii_of_string (digits 6 (Z.abs y)) ++ rest) =
              Some (y, rest)).
      unfold read_year. cbn [Ascii.eqb Bool.eqb].
      rewrite read_digits_small by (change (10 ^ Z.of_nat 6) with 1000000; lia).
      do 2 f_equal. lia.
Qed.

(** The text [toISOString] writes for a time value names that very
    instant. *)
Lemma iso_string_names_its_instant t :
  Z.abs t ≤ maxTime → iso_8601_instant (iso_string t) = Some t.
Proof.
  intros Ht. unfold maxTime in Ht.
  assert (Hz : Z.abs (t / msPerDay) ≤ 100000000)
    by (unfold msPerDay; Z.div_mod_to_equations; lia).
  pose proof (civil_ranges (t / msPerDay)) as Hr.
  pose proof (days_from_civil_of_civil (t / msPerDay)) as Hd.
  pose proof (civil_year_range (t / msPerDay) Hz) as Hy.
  pose proof (Z.mod_pos_bound t msPerDay ltac:(reflexivity)) as Hms.
  unfold iso_string, iso_8601_instant.
  destruct (civil_from_days (t / msPerDay)) as [[y m] d] eqn:Hc.
  destruct Hr as (Hm & Hday & _).
  set (ms := t mod msPerDay) in *.
  rewrite !list_ascii_of_string_app.
  rewrite read_year_string by exact Hy.
  cbn [mbind option_bind list_ascii_of_string app expect Ascii.eqb Bool.eqb].
  rewrite read_digits_small by (change (10 ^ Z.of_nat 2) with 100; lia).
  cbn [mbind option_bind list_ascii_of_string app expect Ascii.eqb Bool.eqb].
  rewrite read_digits_small by (change (10 ^ Z.of_nat 2) with 100; lia).
  cbn [mbind option_bind list_ascii_of_string app expect Ascii.eqb Bool.eqb].
  unfold msPerDay in Hms.
  rewrite read_digits_small
    by (change (10 ^ Z.of_nat 2) with 100; Z.div_mod_to_equations; lia).
  cbn [mbind option_bind list_ascii_of_string app expect Ascii.eqb Bool.eqb].
  rewrite read_digits_small
    by (change (10 ^ Z.of_nat 2) with 100; Z.div_mod_to_equations; lia).
  cbn [mbind option_bind list_ascii_of_string app expect Ascii.eqb Bool.eqb].
  rewrite read_digits_small
    by (change (10 ^ Z.of_nat 2) with 100; Z.div_mod_to_equations; lia).
  cbn [mbind option_bind list_ascii_of_string app expect Ascii.eqb Bool.eqb].
  rewrite read_digits_small
    by (change (10 ^ Z.of_nat 3) with 1000; Z.div_mod_to_equations; lia).
  cbn [mbind option_bind list_ascii_of_string app expect Ascii.eqb Bool.eqb].
  rewrite Hd, Hc.
  rewrite !bool_decide_true by (reflexivity || lia || (Z.div_mod_to_equations; lia)).
  cbn [andb]. f_equal. unfold ms, msPerDay. Z.div_mod_to_equations. lia.
Qed.

End Platform.

(** ** The reminder scheduler *)
Section Scheduler.

Context (E : env).

(** One call of [scheduleEmail] reads the clock once and performs the
    job of its offset. *)
Lemma scheduleEmail_job eventDate offsetMs to subject html w :
  scheduleEmail E eventDate offsetMs to subject html w =
  (inr (), stamped w (job (clock E (ticks w)) eventDate offsetMs
                        {| to := to; subject := subject; html := html |})).
Proof.
  unfold scheduleEmail, job, mbind, M_bind, Date_now; cbn.
  destruct (nle _ 0); reflexivity.
Qed.

(** The send time of a valid date is the sum, as long as the sum is
    itself a time value. *)
Lemma sendTime_sum t offsetMs :
  Z.abs (t + offsetMs) ≤ maxTime →
  getTime (new_Date (nadd (getTime (Some t)) offsetMs)) = Some (t + offsetMs).
Proof.
  intros H. cbn. rewrite bool_decide_true; [reflexivity | exact H].
Qed.

(** A sum that leaves the range of time values is NaN. *)
Lemma sendTime_NaN t offsetMs :
  maxTime < Z.abs (t + offsetMs) →
  getTime (new_Date (nadd (getTime (Some t)) offsetMs)) = None.
Proof.
  intros H. cbn. rewrite bool_decide_false; [reflexivity | lia].
Qed.

End Scheduler.

Section SchedulerClaims.

Context (E : env).

(** A call whose send time is a time value not after the clock sends
    the mail within the call and arms no timer. *)
Lemma scheduleEmail_past eventDate offsetMs to subject html w sendTime :
  getTime (new_Date (nadd (getTime eventDate) offsetMs)) = Some sendTime →
  sendTime ≤ clock E (ticks w) →
  scheduleEmail E eventDate offsetMs to subject html w =
    (inr (), stamped w (SendMail {| to := to; subject := subject; html := html |})).
Proof.
  intros Hs Hle. rewrite scheduleEmail_job. unfold job. rewrite Hs. cbn.
  rewrite bool_decide_true by lia. reflexivity.
Qed.

(** C1, as amended. A call of [scheduleEmail] with eventTime + offset
    not after the clock sends the mail within the call, with no
    timer, when that sum is a time value, that is, at most 8.64e15 ms
    from the epoch. When the sum is not a time value the send time is
    an Invalid Date and no comparison holds: nothing is sent within
    the call, and a timer is armed with NaN for its delay, due 1 ms
    later. *)
Theorem scheduleEmail_past_sends_at_once eventTime offsetMs to subject html w :
  eventTime + offsetMs ≤ clock E (ticks w) →
  (Z.abs (eventTime + offsetMs) ≤ maxTime →
   scheduleEmail E (Some eventTime) offsetMs to subject html w =
     (inr (), stamped w (SendMail {| to := to; subject := subject; html := html |})))
  ∧ (maxTime < Z.abs (eventTime + offsetMs) →
     scheduleEmail E (Some eventTime) offsetMs to subject html w =
       (inr (), stamped w (SetTimeout {| to := to; subject := subject; html := html |} NaN))
     ∧ fires_at (clock E (ticks w)) NaN = clock E (ticks w) + 1).
Proof.
  intros Hle. split.
  - intros Hr. apply (scheduleEmail_past _ _ _ _ _ _ (eventTime + offsetMs)).
    + apply sendTime_sum, Hr.
    + exact Hle.
  - intros Hout. split; [| reflexivity].
    rewrite scheduleEmail_job. unfold job.
    rewrite (sendTime_NaN eventTime offsetMs Hout). reflexivity.
Qed.

(** A call whose send time is after the clock arms one timer with the
    difference as its delay, and sends nothing within the call. *)
Lemma scheduleEmail_future_arms_timer eventDate offsetMs to subject html w sendTime :
  getTime (new_Date (nadd (getTime eventDate) offsetMs)) = Some sendTime →
  clock E (ticks w) < sendTime →
  scheduleEmail E eventDate offsetMs to subject html w =
    (inr (), stamped w (SetTimeout {| to := to; subject := subject; html := html |}
                          (Some (sendTime - clock E (ticks w))))).
Proof.
  intros Hs Hlt. rewrite scheduleEmail_job. unfold job. rewrite Hs. cbn.
  rewrite bool_decide_false by lia. reflexivity.
Qed.

(** A delay the timers accept is kept: the mail leaves at the send
    time. *)
Lemma fires_at_kept now sendTime :
  now < sendTime → sendTime - now ≤ TIMEOUT_MAX →
  fires_at now (Some (sendTime - now)) = sendTime.
Proof.
  intros H1 H2. unfold fires_at, timer_after.
  rewrite bool_decide_true by lia. lia.
Qed.

(** When the sum leaves the range of time values the send time is an
    Invalid Date, the delay is NaN, no comparison holds, and a timer
    is armed with NaN for its delay. *)
Lemma scheduleEmail_unrepresentable_send_time t offsetMs to subject html w :
  maxTime < Z.abs (t + offsetMs) →
  scheduleEmail E (Some t) offsetMs to subject html w =
    (inr (), stamped w (SetTimeout {| to := to; subject := subject; html := html |} NaN)).
Proof.
  intros Hout. rewrite scheduleEmail_job. unfold job.
  rewrite (sendTime_NaN t offsetMs Hout). reflexivity.
Qed.

(** C2. The timer is armed with the exact delay, but a delay beyond
    2^31-1 ms is one the timers replace by 1 ms: for a send time more
    than that far ahead the mail leaves 1 ms after the call, before
    its send time. *)
Theorem scheduleEmail_far_future_fires_early eventDate offsetMs to subject html w sendTime :
  getTime (new_Date (nadd (getTime eventDate) offsetMs)) = Some sendTime →
  clock E (ticks w) + TIMEOUT_MAX < sendTime →
  ∃ delay,
    scheduleEmail E eventDate offsetMs to subject html w =
      (inr (), stamped w (SetTimeout {| to := to; subject := subject; html := html |} delay))
    ∧ delay = Some (sendTime - clock E (ticks w))
    ∧ fires_at (clock E (ticks w)) delay = clock E (ticks w) + 1
    ∧ fires_at (clock E (ticks w)) delay < sendTime.
Proof.
  intros Hs Hfar. exists (Some (sendTime - clock E (ticks w))).
  assert (Hmax : 0 < TIMEOUT_MAX) by reflexivity.
  split; [apply scheduleEmail_future_arms_timer; [exact Hs | lia] |].
  split; [reflexivity |].
  unfold fires_at, timer_after. rewrite bool_decide_false by lia. lia.
Qed.

End SchedulerClaims.

(** A session that starts in an hour: the reminder of the day before
    is due already and leaves within the call. *)
Lemma scheduleEmail_past_sends_at_once_witness :
  scheduleEmail Deployment.env0 (Some (Deployment.started + 3600000)) (-86400000)
    (to Deployment.reminder) (subject Deployment.reminder) (html Deployment.reminder)
    Deployment.world0 =
  (inr (), stamped Deployment.world0 (SendMail Deployment.reminder)).
Proof.
  apply (scheduleEmail_past_sends_at_once Deployment.env0 (Deployment.started + 3600000)
           (-86400000) (to Deployment.reminder) (subject Deployment.reminder)
           (html Deployment.reminder) Deployment.world0).
  - vm_compute. discriminate.
  - vm_compute. discriminate.
Defined.

(** For a session at the earliest time value the sum with -24 h is
    before the clock, and the call sends nothing: it arms a timer. *)
Lemma scheduleEmail_past_below_range_arms_timer :
  Deployment.earliest + -86400000 ≤ clock Deployment.env0 (ticks Deployment.world0)
  ∧ scheduleEmail Deployment.env0 (Some Deployment.earliest) (-86400000)
      (to Deployment.reminder) (subject Deployment.reminder) (html Deployment.reminder)
      Deployment.world0 =
    (inr (), stamped Deployment.world0 (SetTimeout Deployment.reminder NaN))
  ∧ scheduleEmail Deployment.env0 (Some Deployment.earliest) (-86400000)
      (to Deployment.reminder) (subject Deployment.reminder) (html Deployment.reminder)
      Deployment.world0 ≠
    (inr (), stamped Deployment.world0 (SendMail Deployment.reminder)).
Proof.
  split; [vm_compute; discriminate |].
  assert (H : scheduleEmail Deployment.env0 (Some Deployment.earliest) (-86400000)
                (to Deployment.reminder) (subject Deployment.reminder)
                (html Deployment.reminder) Deployment.world0 =
              (inr (), stamped Deployment.world0 (SetTimeout Deployment.reminder NaN)))
    by reflexivity.
  split; [exact H |]. rewrite H. intros [=].
Qed.

Lemma scheduleEmail_far_future_fires_early_witness :
  ∃ delay,
    scheduleEmail Deployment.env0 (Some (Deployment.started + 30 * msPerDay)) (-86400000)
      (to Deployment.reminder) (subject Deployment.reminder) (html Deployment.reminder)
      Deployment.world0 =
    (inr (), stamped Deployment.world0 (SetTimeout Deployment.reminder delay))
    ∧ delay = Some (Deployment.started + 29 * msPerDay - Deployment.started)
    ∧ fires_at Deployment.started delay = Deployment.started + 1
    ∧ fires_at Deployment.started delay < Deployment.started + 29 * msPerDay.
Proof.
  apply (scheduleEmail_far_future_fires_early Deployment.env0
           (Some (Deployment.started + 30 * msPerDay)) (-86400000)
           (to Deployment.reminder) (subject Deployment.reminder) (html Deployment.reminder)
           Deployment.world0 (Deployment.started + 29 * msPerDay)).
  - reflexivity.
  - vm_compute. reflexivity.
Defined.

(** ** The registration handler *)

(** Running a sequence: when the first computation returns, the rest
    goes on from its world; when it throws, the sequence throws. *)
Lemma bind_inr {A B} (m : M A) (f : A → M B) w a w' :
  m w = (inr a, w') → (m ≫= f) w = f a w'.
Proof. intros H. unfold mbind, M_bind. rewrite H. reflexivity. Qed.

Lemma bind_inl {A B} (m : M A) (f : A → M B) w e w' :
  m w = (inl e, w') → (m ≫= f) w = (inl e, w').
Proof. intros H. unfold mbind, M_bind. rewrite H. reflexivity. Qed.

Ltac run tac :=
  lazymatch goal with
  | |- (?m ≫= ?f) ?w = _ =>
      let H := fresh in
      eassert (H : m w = (inr _, _)) by tac;
      rewrite (bind_inr m f w _ _ H); clear H
  end.

Ltac stop tac :=
  lazymatch goal with
  | |- (?m ≫= ?f) ?w = _ =>
      let H := fresh in
      eassert (H : m w = (inl _, _)) by tac;
      rewrite (bind_inl m f w _ _ H); clear H
  end.

(** A field of a concrete form is present. *)
Ltac present := intros [H|H]; vm_compute in H; discriminate H.

Section Registration.

Context (E : env).

Lemma truthy_or_empty x : truthy (or_empty x) = negb (falsy x).
Proof.
  destruct x as [v|]; cbn; [|reflexivity].
  destruct (truthy v) eqn:H; cbn; [exact H | reflexivity].
Qed.

(** Missing is what the handler tests: [!x]. *)
Lemma falsy_missing req k : falsy (form req !! k) = true ↔ missing req k.
Proof.
  unfold missing. destruct (form req !! k) as [[s|l]|]; cbn.
  - rewrite negb_involutive, bool_decide_eq_true.
    split; [intros ->; by right | intros [?|[= ->]]; done].
  - split; [done | intros [?|?]; done].
  - split; [by left | done].
Qed.

Lemma complete_passes req :
  complete req →
  negb (truthy (or_empty (form req !! "firstName")))
  || negb (truthy (or_empty (form req !! "email")))
  || negb (truthy (or_empty (form req !! "session")))
  || falsy (form req !! "consent") = false.
Proof.
  intros (H1 & H2 & H3 & H4). rewrite !truthy_or_empty, !negb_involutive.
  rewrite <- falsy_missing in H1, H2, H3, H4.
  destruct (falsy (form req !! "firstName")), (falsy (form req !! "email")),
    (falsy (form req !! "session")), (falsy (form req !! "consent")); done.
Qed.

Lemma incomplete_fails req k :
  k ∈ ["firstName"; "email"; "session"; "consent"] → missing req k →
  negb (truthy (or_empty (form req !! "firstName")))
  || negb (truthy (or_empty (form req !! "email")))
  || negb (truthy (or_empty (form req !! "session")))
  || falsy (form req !! "consent") = true.
Proof.
  intros Hk Hmiss. rewrite !truthy_or_empty, !negb_involutive.
  apply falsy_missing in Hmiss.
  repeat (apply elem_of_cons in Hk as [-> | Hk]);
    [ .. | by apply elem_of_nil in Hk ]; rewrite Hmiss;
    rewrite ?orb_true_r; reflexivity.
Qed.

(** A POST to /register is handled by [register]. *)
Lemma server_register req w :
  posts_register req → server E req w = register E req w.
Proof.
  intros [Hm Hp]. unfold server. rewrite Hp.
  run ltac:(reflexivity). rewrite Hm.
  rewrite !bool_decide_true by reflexivity. reflexivity.
Qed.

(** C3. A POST to /register in which any one of firstName, email,
    session or consent is missing is answered with status 400 and
    leaves the world as it was: the registration store is untouched,
    no mail is sent, no timer armed, no call made to the ledger. *)
Theorem register_rejects_missing_field req w k :
  posts_register req →
  k ∈ ["firstName"; "email"; "session"; "consent"] →
  missing req k →
  server E req w = (inr rejection, w).
Proof.
  intros Hpost Hk Hmiss. rewrite (server_register req w Hpost).
  unfold register. cbv zeta.
  rewrite (incomplete_fails req k Hk Hmiss). reflexivity.
Qed.

Local Opaque iso_string urlencoded encodeURIComponent.

Lemma stored_list_default f items :
  stored_list f = Some items → default (JArr []) (parse_file f) = JArr items.
Proof. destruct f as [| | []]; cbn; intros [= <-]; reflexivity. Qed.

(** The ledger is called when it is configured, and only then. *)
Lemma appendToAirtable_ledger req t w :
  appendToAirtable E (or_empty (form req !! "firstName"))
    (or_empty (form req !! "lastName")) (or_empty (form req !! "email"))
    (iso_string t) w =
  (inr (), {| reg_file := reg_file w; views_file := views_file w;
              effects := effects w ++ ledger E req t; ticks := ticks w |}).
Proof.
  unfold appendToAirtable, ledger. destruct (airtableBase E); cbn; [reflexivity |].
  rewrite app_nil_r. destruct w; reflexivity.
Qed.

Lemma put_reg_file_done f w :
  REG_FILE_writable E = true →
  put_reg_file E f w =
    (inr (), {| reg_file := f; views_file := views_file w;
                effects := effects w; ticks := ticks w |}).
Proof. intros H. unfold put_reg_file. rewrite H. reflexivity. Qed.

Lemma put_reg_file_fails f w :
  REG_FILE_writable E = false → put_reg_file E f w = (inl SystemError, w).
Proof. intros H. unfold put_reg_file. rewrite H. reflexivity. Qed.

(** A session that parses is a time value. *)
Lemma Date_of_range session t : Date_of E session = Some t → Z.abs t ≤ maxTime.
Proof.
  unfold Date_of, TimeClip. destruct (Date_parse E (ToString session)) as [x|]; [| discriminate].
  case_bool_decide as Hx; [| discriminate]. intros [= <-]. exact Hx.
Qed.

(** The record the handler builds is the record of the form, member
    by member. *)
Lemma entry_is_record req t :
  entry req t =
    record (field req "firstName") (field req "lastName") (field req "email") (iso_string t).
Proof. reflexivity. Qed.

(** The whole course of an accepted registration: the record is
    appended, the ledger called, the confirmation sent, the five
    reminders scheduled in order, the operators notified, and the
    client redirected. *)
Lemma register_accepts req w t items href :
  complete req →
  Date_of E (field req "session") = Some t →
  stored_list (reg_file w) = Some items →
  REG_FILE_writable E = true →
  URL_href E "/masterclass.html" (baseUrl E req) = Some href →
  register E req w =
    (inr (redirect req t),
     {| reg_file := Stored (JArr (items ++ [entry req t]));
        views_file := views_file w;
        effects := effects w ++ ledger E req t
                     ++ [SendMail (confirmation req (link href t))]
                     ++ jobs E (ticks w) (Some t) (reminders req (Some t) (link href t))
                     ++ [SendMail (notice E req (Some t))];
        ticks := (ticks w + 5)%nat |}).
Proof.
  intros Hc Ht Hf Hw Hu. apply stored_list_default in Hf. unfold register, field in *.
  rewrite (complete_passes req Hc). rewrite Ht. cbv zeta. cbv iota.
  run ltac:(reflexivity). rewrite Hf. cbn [push].
  run ltac:(run ltac:(run ltac:(reflexivity); reflexivity); reflexivity).
  run ltac:(apply put_reg_file_done, Hw). run ltac:(reflexivity).
  run ltac:(apply (appendToAirtable_ledger req t)).
  unfold joinLink. rewrite Hu.
  run ltac:(reflexivity). run ltac:(reflexivity).
  do 5 run ltac:(apply scheduleEmail_job).
  run ltac:(reflexivity).
  unfold mret, M_ret, redirect, field, jobs, reminders, confirmation, notice, link,
    entry, field, stamped.
  cbn. rewrite <- ?app_assoc. cbn [app].
  repeat f_equal; lia.
Qed.

(** When the link cannot be built the handler throws after the record
    was written and the ledger called, and before any mail. *)
Lemma register_link_fails req w t items :
  complete req →
  Date_of E (field req "session") = Some t →
  stored_list (reg_file w) = Some items →
  REG_FILE_writable E = true →
  URL_href E "/masterclass.html" (baseUrl E req) = None →
  register E req w =
    (inl TypeError,
     {| reg_file := Stored (JArr (items ++ [entry req t]));
        views_file := views_file w;
        effects := effects w ++ ledger E req t;
        ticks := ticks w |}).
Proof.
  intros Hc Ht Hf Hw Hu. apply stored_list_default in Hf. unfold register, field in *.
  rewrite (complete_passes req Hc). rewrite Ht. cbv zeta. cbv iota.
  run ltac:(reflexivity). rewrite Hf. cbn [push].
  run ltac:(run ltac:(run ltac:(reflexivity); reflexivity); reflexivity).
  run ltac:(apply put_reg_file_done, Hw). run ltac:(reflexivity).
  run ltac:(apply (appendToAirtable_ledger req t)).
  unfold joinLink. rewrite Hu.
  stop ltac:(reflexivity). reflexivity.
Qed.

(** When the store cannot be written the handler throws at the write:
    nothing is persisted, the ledger is not called, nothing is sent. *)
Lemma register_write_fails req w t items :
  complete req →
  Date_of E (field req "session") = Some t →
  stored_list (reg_file w) = Some items →
  REG_FILE_writable E = false →
  register E req w = (inl SystemError, w).
Proof.
  intros Hc Ht Hf Hw. apply stored_list_default in Hf. unfold register, field in *.
  rewrite (complete_passes req Hc). rewrite Ht. cbv zeta. cbv iota.
  run ltac:(reflexivity). rewrite Hf. cbn [push].
  run ltac:(run ltac:(run ltac:(reflexivity); reflexivity); reflexivity).
  stop ltac:(apply put_reg_file_fails, Hw). reflexivity.
Qed.

(** With a session that does not parse, the handler throws where the
    record is built. *)
Lemma register_invalid_date req w :
  complete req →
  Date_of E (field req "session") = None →
  register E req w =
    (inl (match reg_file w with Stored JNull => TypeError | _ => RangeError end), w).
Proof.
  intros Hc Hd. unfold register, field in *.
  rewrite (complete_passes req Hc). rewrite Hd. cbv zeta. cbv iota.
  run ltac:(reflexivity).
  destruct (reg_file w) as [| | []]; cbn [parse_file from_option id push];
    first [ stop ltac:(stop ltac:(stop ltac:(reflexivity); reflexivity); reflexivity)
          | stop ltac:(reflexivity) ]; reflexivity.
Qed.

(** With a store that holds something other than a list, the handler
    throws before writing. *)
Lemma register_bad_store req w t :
  complete req →
  Date_of E (field req "session") = Some t →
  stored_list (reg_file w) = None →
  register E req w = (inl TypeError, w).
Proof.
  intros Hc Ht Hs. unfold register, field in *.
  rewrite (complete_passes req Hc). rewrite Ht. cbv zeta. cbv iota.
  run ltac:(reflexivity).
  destruct (reg_file w) as [| | j]; try discriminate Hs.
  destruct j; try discriminate Hs; cbn [parse_file from_option id push];
    first [ stop ltac:(stop ltac:(run ltac:(run ltac:(reflexivity); reflexivity);
                                  reflexivity); reflexivity)
          | stop ltac:(reflexivity) ]; reflexivity.
Qed.

(** A form with a field missing is turned away by [register]. *)
Lemma register_rejects req w k :
  k ∈ ["firstName"; "email"; "session"; "consent"] → missing req k →
  register E req w = (inr rejection, w).
Proof.
  intros Hk Hmiss. unfold register. cbv zeta.
  rewrite (incomplete_fails req k Hk Hmiss). reflexivity.
Qed.

(** The record is in the store even when a later step fails. *)
Lemma register_persists req w t items :
  complete req →
  Date_of E (field req "session") = Some t →
  stored_list (reg_file w) = Some items →
  REG_FILE_writable E = true →
  reg_file (after (register E req) w) = Stored (JArr (items ++ [entry req t])).
Proof.
  intros Hc Ht Hf Hw. unfold after.
  destruct (URL_href E "/masterclass.html" (baseUrl E req)) as [href|] eqn:Hu.
  - rewrite (register_accepts req w t items href Hc Ht Hf Hw Hu). reflexivity.
  - rewrite (register_link_fails req w t items Hc Ht Hf Hw Hu). reflexivity.
Qed.

(** The base of the link when no base URL is configured and the
    request carries a forwarded host. *)
Lemma baseUrl_forwarded req h :
  is_set (APP_BASE_URL E) || is_set (BASE_URL E) = false →
  req_headers req !! "x-forwarded-host" = Some h →
  h ≠ EmptyString →
  baseUrl E req =
    default "http" (nonempty (req_headers req !! "x-forwarded-proto")) +:+ "://" +:+ h.
Proof.
  intros Hunset Hhost Hh.
  assert (Hb : getBaseUrl req =
               default "http" (nonempty (req_headers req !! "x-forwarded-proto"))
                 +:+ "://" +:+ h).
  { unfold getBaseUrl, nonempty. rewrite Hhost. rewrite bool_decide_false by exact Hh.
    reflexivity. }
  unfold baseUrl, is_set, nonempty in *.
  destruct (APP_BASE_URL E) as [a|]; [case_bool_decide; [| discriminate Hunset] |];
    (destruct (BASE_URL E) as [b|]; [case_bool_decide; [exact Hb | discriminate Hunset]
                                    | exact Hb]).
Qed.


(** C5. A valid registration sent through a proxy to a deployment with
    no base URL of its own, with a forwarded host the URL constructor
    refuses, is persisted and then lost to the registrant: the
    handler throws where the link is built, after the write and the
    call to the ledger, and makes neither the confirmation, nor any of
    the five reminder jobs, nor the notice to the operators. *)
Theorem register_with_refused_host_dispatches_nothing req w t items h :
  posts_register req →
  complete req →
  Date_of E (field req "session") = Some t →
  stored_list (reg_file w) = Some items →
  REG_FILE_writable E = true →
  is_set (APP_BASE_URL E) || is_set (BASE_URL E) = false →
  req_headers req !! "x-forwarded-host" = Some h →
  h ≠ EmptyString →
  URL_href E "/masterclass.html"
    (default "http" (nonempty (req_headers req !! "x-forwarded-proto")) +:+ "://" +:+ h)
    = None →
  outcome (server E req) w = inl TypeError
  ∧ reg_file (after (server E req) w) = Stored (JArr (items ++ [entry req t]))
  ∧ ∃ made, effects (after (server E req) w) = effects w ++ made
            ∧ Forall (λ e, ¬ notifies e) made.
Proof.
  intros Hpost Hc Ht Hs Hw Hunset Hhost Hh Hu.
  rewrite <- (baseUrl_forwarded req h Hunset Hhost Hh) in Hu.
  unfold outcome, after. rewrite (server_register req w Hpost).
  rewrite (register_link_fails req w t items Hc Ht Hs Hw Hu).
  split; [reflexivity |]. split; [reflexivity |].
  exists (ledger E req t). split; [reflexivity |].
  unfold ledger. destruct (airtableBase E); repeat constructor. intros [].
Qed.

(** C9, as amended. With a registration store that cannot be read or
    holds text that is not JSON, the handler takes the store to be
    empty. When the file can be written, a valid registration
    overwrites it: the store then holds the new record alone, and the
    client is redirected if the link can be built as well. When the
    file cannot be written, the handler throws at the write and
    leaves everything as it was. *)
Theorem unreadable_store_counts_as_empty req w t :
  posts_register req →
  complete req →
  Date_of E (field req "session") = Some t →
  parse_file (reg_file w) = None →
  if REG_FILE_writable E
  then reg_file (after (server E req) w) =
         Stored (JArr [record (field req "firstName") (field req "lastName")
                         (field req "email") (iso_string t)])
       ∧ (∀ href, URL_href E "/masterclass.html" (baseUrl E req) = Some href →
            outcome (server E req) w = inr (redirect req t))
  else server E req w = (inl SystemError, w).
Proof.
  intros Hpost Hc Ht Hf.
  assert (Hl : stored_list (reg_file w) = Some []).
  { destruct (reg_file w); [reflexivity | reflexivity | discriminate]. }
  destruct (REG_FILE_writable E) eqn:Hw.
  - split.
    + unfold after. rewrite (server_register req w Hpost).
      apply (register_persists req w t [] Hc Ht Hl Hw).
    + intros href Hu. unfold outcome. rewrite (server_register req w Hpost).
      rewrite (register_accepts req w t [] href Hc Ht Hl Hw Hu). reflexivity.
  - rewrite (server_register req w Hpost).
    apply (register_write_fails req w t [] Hc Ht Hl Hw).
Qed.

(** A store that parses to something other than a list is not taken
    for empty: the handler throws before writing. *)
Lemma register_throws_on_store_that_is_not_a_list req w t j :
  posts_register req →
  complete req →
  Date_of E (field req "session") = Some t →
  reg_file w = Stored j →
  stored_list (Stored j) = None →
  server E req w = (inl TypeError, w).
Proof.
  intros Hpost Hc Ht Hf Hj. rewrite (server_register req w Hpost).
  apply (register_bad_store req w t Hc Ht). rewrite Hf. exact Hj.
Qed.

(** C10. A POST to /register with the four required fields, whose
    session is a string the engine does not parse, passes the
    validation and then throws where the record is built: no answer
    is given, nothing is persisted, nothing is sent. The error is the
    RangeError of [toISOString], or a TypeError when the store holds
    [null]. *)
Theorem register_throws_on_unparseable_session req w :
  posts_register req →
  complete req →
  Date_of E (field req "session") = None →
  server E req w =
    (inl (match reg_file w with Stored JNull => TypeError | _ => RangeError end), w).
Proof.
  intros Hpost Hc Hd. rewrite (server_register req w Hpost).
  unfold register, field in *.
  rewrite (complete_passes req Hc). rewrite Hd. cbv zeta. cbv iota.
  run ltac:(reflexivity).
  destruct (reg_file w) as [| | []]; cbn [parse_file from_option id push];
    first [ stop ltac:(stop ltac:(stop ltac:(reflexivity); reflexivity); reflexivity)
          | stop ltac:(reflexivity) ]; reflexivity.
Qed.

End Registration.

Lemma register_rejects_missing_field_witness :
  server Deployment.env0 Deployment.no_consent Deployment.world0 =
    (inr rejection, Deployment.world0).
Proof.
  apply (register_rejects_missing_field Deployment.env0 Deployment.no_consent
           Deployment.world0 "consent").
  - split; reflexivity.
  - compute_done.
  - left. reflexivity.
Defined.


Example ada_is_appended_after_grace :
  reg_file (after (server Deployment.env0 Deployment.ada) Deployment.enrolled) =
    Stored (JArr [record (VStr "Grace") (VStr "") (VStr "grace@example.org")
                    "2025-08-22T09:30:00.000Z";
                  record (VStr "Ada") (VStr "Lovelace") (VStr "ada@example.org")
                    "2025-08-23T16:00:00.000Z"]).
Proof. vm_compute. reflexivity. Qed.

Example session_text_names_the_session :
  iso_8601_instant "2025-08-23T16:00:00.000Z" = Some Deployment.session.
Proof. vm_compute. reflexivity. Qed.

(** The form of [ada], forwarded with the host [a b]: stored, and no
    mail. *)
Lemma register_with_refused_host_dispatches_nothing_witness :
  outcome (server Deployment.env_proxied Deployment.ada_forwarded) Deployment.world0 =
    inl TypeError
  ∧ reg_file (after (server Deployment.env_proxied Deployment.ada_forwarded)
                Deployment.world0) =
      Stored (JArr ([] ++ [entry Deployment.ada_forwarded Deployment.session]))
  ∧ ∃ made, effects (after (server Deployment.env_proxied Deployment.ada_forwarded)
                       Deployment.world0) = effects Deployment.world0 ++ made
            ∧ Forall (λ e, ¬ notifies e) made.
Proof.
  apply (register_with_refused_host_dispatches_nothing Deployment.env_proxied
           Deployment.ada_forwarded Deployment.world0 Deployment.session [] "a b").
  - split; reflexivity.
  - repeat split; present.
  - vm_compute. reflexivity.
  - reflexivity.
  - reflexivity.
  - reflexivity.
  - reflexivity.
  - discriminate.
  - reflexivity.
Defined.

Example forwarded_registration_is_stored_without_mail :
  server Deployment.env_proxied Deployment.ada_forwarded Deployment.world0 =
    (inl TypeError,
     {| reg_file :=
          Stored (JArr [record (VStr "Ada") (VStr "Lovelace") (VStr "ada@example.org")
                          "2025-08-23T16:00:00.000Z"]);
        views_file := Stored ∅; effects := []; ticks := 0 |}).
Proof. vm_compute. reflexivity. Qed.

Lemma unreadable_store_counts_as_empty_witness :
  reg_file (after (server Deployment.env0 Deployment.ada) Deployment.damaged) =
    Stored (JArr [record (field Deployment.ada "firstName")
                    (field Deployment.ada "lastName") (field Deployment.ada "email")
                    (iso_string Deployment.session)])
  ∧ (∀ href, URL_href Deployment.env0 "/masterclass.html"
               (baseUrl Deployment.env0 Deployment.ada) = Some href →
       outcome (server Deployment.env0 Deployment.ada) Deployment.damaged =
         inr (redirect Deployment.ada Deployment.session)).
Proof.
  apply (unreadable_store_counts_as_empty Deployment.env0 Deployment.ada Deployment.damaged
           Deployment.session).
  - split; reflexivity.
  - repeat split; present.
  - vm_compute. reflexivity.
  - reflexivity.
Defined.

(** A store that is a directory can be neither read nor written: the
    handler throws at the write. A store that holds [null] is read,
    and the handler throws where the record is pushed. *)
Lemma unwritable_store_is_not_overwritten :
  parse_file (reg_file Deployment.locked) = None
  ∧ server Deployment.env_locked Deployment.ada Deployment.locked =
      (inl SystemError, Deployment.locked)
  ∧ server Deployment.env0 Deployment.ada Deployment.nulled =
      (inl TypeError, Deployment.nulled).
Proof. split; [reflexivity |]. split; vm_compute; reflexivity. Qed.

Lemma register_throws_on_unparseable_session_witness :
  server Deployment.env0 Deployment.vague Deployment.world0 =
    (inl RangeError, Deployment.world0).
Proof.
  apply (register_throws_on_unparseable_session Deployment.env0 Deployment.vague
           Deployment.world0).
  - split; reflexivity.
  - repeat split; present.
  - vm_compute. reflexivity.
Defined.

(** ** The calendar slots *)
Section Calendar.

(** A day number names the designated date only if it is the day
    number of 23 August 2025. *)
Lemma civil_designated n : civil_from_days n = (2025, 8, 23) → n = 20323.
Proof.
  unfold civil_from_days. cbv zeta. intros H. injection H as Hy Hm Hd.
  repeat case_bool_decide; Z.div_mod_to_equations; lia.
Qed.

Lemma designated_local_day n : designated (local_day n) ↔ n = MakeDay 2025 7 23.
Proof.
  split.
  - unfold designated, local_day.
    destruct (civil_from_days n) as [[y m] d] eqn:Hc. cbn.
    intros ([= ->] & [= Hm] & [= ->] & _).
    replace m with 8 in Hc by lia. apply civil_designated in Hc. subst n. reflexivity.
  - intros ->. vm_compute. repeat split.
Qed.

(** The test that opens [getTimesForDate]. *)
Lemma designated_test d :
  neq (getFullYear d) 2025 && neq (getMonth d) 7 && neq (getDate d) 23
  && neq (getDay d) 6 = true ↔ designated d.
Proof.
  unfold neq, designated. rewrite !andb_true_iff, !bool_decide_eq_true. tauto.
Qed.

Lemma designated_test_false d :
  ¬ designated d →
  neq (getFullYear d) 2025 && neq (getMonth d) 7 && neq (getDate d) 23
  && neq (getDay d) 6 = false.
Proof.
  intros Hn. apply not_true_is_false. intros Ht. apply Hn, designated_test, Ht.
Qed.

Lemma other_day_not_designated d k : getDay d = Some k → k ≠ 6 → ¬ designated d.
Proof. intros Hd Hk (_ & _ & _ & H6). congruence. Qed.

Lemma override_iff d :
  getTimesForDate d = saturday ++ ["22:00"] ↔ designated d.
Proof.
  unfold getTimesForDate. cbv zeta.
  destruct (neq (getFullYear d) 2025 && neq (getMonth d) 7 && neq (getDate d) 23
            && neq (getDay d) 6) eqn:Ht.
  - split; [intros _; apply designated_test, Ht | reflexivity].
  - split.
    + repeat match goal with |- context [if ?b then _ else _] => destruct b end;
        discriminate.
    + intros Hd. apply designated_test in Hd. congruence.
Qed.

(** C8. [getTimesForDate] is a function of the four values it reads.
    It gives the Saturday slots followed by 22:00 exactly for the
    designated date, Saturday 23 August 2025; on any other Saturday
    the standard Saturday slots; and on each other day the slots of
    that day of the week. Of the days of the calendar, one alone is
    the designated date, and it is a Saturday. *)
Theorem getTimesForDate_slots d :
  (getTimesForDate d = saturday ++ ["22:00"] ↔ designated d)
  ∧ (getDay d = Some 6 → ¬ designated d → getTimesForDate d = saturday)
  ∧ (∀ k, getDay d = Some k → 1 ≤ k ≤ 4 → getTimesForDate d = weekdays)
  ∧ (getDay d = Some 5 → getTimesForDate d = friday)
  ∧ (getDay d = Some 0 → getTimesForDate d = sunday)
  ∧ (∀ n, getTimesForDate (local_day n) = saturday ++ ["22:00"] ↔ n = MakeDay 2025 7 23)
  ∧ getDay (local_day (MakeDay 2025 7 23)) = Some 6.
Proof.
  split; [apply override_iff |].
  split.
  { intros Hd Hn. unfold getTimesForDate. cbv zeta.
    rewrite (designated_test_false d Hn), Hd. reflexivity. }
  split.
  { intros k Hd Hk. unfold getTimesForDate. cbv zeta.
    rewrite (designated_test_false d) by (apply (other_day_not_designated d k Hd); lia).
    rewrite Hd. unfold nge, nle. rewrite !bool_decide_true by lia. reflexivity. }
  split.
  { intros Hd. unfold getTimesForDate. cbv zeta.
    rewrite (designated_test_false d) by (apply (other_day_not_designated d 5 Hd); lia).
    rewrite Hd. reflexivity. }
  split.
  { intros Hd. unfold getTimesForDate. cbv zeta.
    rewrite (designated_test_false d) by (apply (other_day_not_designated d 0 Hd); lia).
    rewrite Hd. reflexivity. }
  split.
  { intros n. rewrite override_iff. apply designated_local_day. }
  reflexivity.
Qed.

End Calendar.

(** ** Routing *)
Section Routing.

Context (E : env).

(** C6. A POST to /track is not routed to the tracking block: the
    handler answers 404 and leaves the tracking store, and the rest
    of the world, as it was; so does a POST to /track-complete. The
    block that keeps the high-water mark sits after the [return] of
    the /register branch. *)
Theorem post_track_is_not_routed w hs f :
  server E {| method := "POST"; url_pathname := "/track";
              req_headers := hs; form := f |} w = (inr not_found, w)
  ∧ server E {| method := "POST"; url_pathname := "/track-complete";
                req_headers := hs; form := f |} w = (inr not_found, w).
Proof. split; reflexivity. Qed.

(** A GET for /admin/views is served as a static file of that name. *)
Lemma admin_views_is_static w hs f :
  server E {| method := "GET"; url_pathname := "/admin/views";
              req_headers := hs; form := f |} w =
  serveStatic E "admin/views" w.
Proof. reflexivity. Qed.

(** A GET whose path holds a malformed escape throws before any
    answer is given. *)
Lemma malformed_escape_throws w hs f :
  server E {| method := "GET"; url_pathname := URL_pathname "/%";
              req_headers := hs; form := f |} w = (inl URIError, w).
Proof. reflexivity. Qed.

End Routing.

(** Two pings for one token, 120 s and then 90 s, through the tracking
    block: the stored value stays 120. *)
Example tracking_120_then_90 :
  let w1 := after (tracking Deployment.env0 "/track" "tok" (Some 120)) Deployment.world0 in
  let w2 := after (tracking Deployment.env0 "/track" "tok" (Some 90)) w1 in
  (λ db, watched <$> (db !! "tok")) <$> parse_file (views_file w2) = Some (Some 120).
Proof. vm_compute. reflexivity. Qed.

(** ** Static files *)
Section Static.

Lemma split_nonempty sep s : split sep s ≠ [].
Proof.
  destruct s as [|c s]; cbn; [discriminate |].
  destruct (sep c); [discriminate |]. destruct (split sep s); discriminate.
Qed.

(** Cutting at a separator cuts both sides apart. *)
Lemma split_app_sep sep a c b :
  sep c = true → split sep (a +:+ String c b) = split sep a ++ split sep b.
Proof.
  intros Hc. induction a as [|x a IH]; simpl.
  - rewrite Hc. reflexivity.
  - rewrite IH. destruct (sep x); [reflexivity |].
    pose proof (split_nonempty sep a) as Hne.
    destruct (split sep a); [contradiction | reflexivity].
Qed.

(** A segment followed by a double dot leaves no trace. *)
Lemma normalizeString_public_up allow xs ys : ∀ acc,
  normalizeString allow acc (xs ++ "public" :: ".." :: ys) =
  normalizeString allow acc (xs ++ ys).
Proof.
  induction xs as [|x xs IH]; intros acc; [reflexivity |].
  cbn [app normalizeString].
  destruct (bool_decide (x = "") || bool_decide (x = ".")); [apply IH |].
  destruct (bool_decide (x = "..")); [| apply IH].
  destruct acc as [|top acc]; [apply IH |].
  destruct (bool_decide (top = "..")); apply IH.
Qed.

Lemma string_app_assoc (a b c : string) : a +:+ b +:+ c = (a +:+ b) +:+ c.
Proof.
  induction a as [|x a IH]; [reflexivity |].
  change (String x (a +:+ b +:+ c) = String x ((a +:+ b) +:+ c)).
  f_equal. exact IH.
Qed.

Lemma endsWith_slash_app a c b :
  endsWith_slash (a +:+ String c b) = endsWith_slash (String c b).
Proof.
  unfold endsWith_slash. rewrite list_ascii_of_string_app, reverse_app.
  cbn [list_ascii_of_string]. rewrite reverse_cons.
  destruct (reverse (list_ascii_of_string b)); reflexivity.
Qed.

(** Under a directory [d], [public/../name] and [name] are the same
    file. *)
Lemma normalize_public_up d c name :
  d ≠ EmptyString →
  normalize (d +:+ "/public/../" +:+ String c name) = normalize (d +:+ "/" +:+ String c name).
Proof.
  intros Hd. destruct d as [|x d]; [contradiction |].
  set (p1 := String x d +:+ "/public/../" +:+ String c name).
  set (p2 := String x d +:+ "/" +:+ String c name).
  assert (Hstart : startsWith p1 "/" = startsWith p2 "/") by reflexivity.
  assert (Hend : endsWith_slash p1 = endsWith_slash p2).
  { unfold p1, p2. rewrite !string_app_assoc, !endsWith_slash_app. reflexivity. }
  assert (Hsegs : ∀ allow, normalizeString allow [] (split is_slash p1) =
                           normalizeString allow [] (split is_slash p2)).
  { intros allow.
    change p1 with (String x d +:+ String "/" ("public/../" +:+ String c name)).
    change p2 with (String x d +:+ String "/" (String c name)).
    rewrite (split_app_sep is_slash (String x d) "/" ("public/../" +:+ String c name))
      by reflexivity.
    rewrite (split_app_sep is_slash (String x d) "/" (String c name)) by reflexivity.
    change (split is_slash ("public/../" +:+ String c name))
      with ("public" :: ".." :: split is_slash (String c name)).
    apply normalizeString_public_up. }
  unfold normalize.
  rewrite (bool_decide_false (p1 = EmptyString)) by discriminate.
  rewrite (bool_decide_false (p2 = EmptyString)) by discriminate.
  rewrite Hstart, Hend, Hsegs. reflexivity.
Qed.

Context (E : env).

(** Asked for [../server.js], [serveStatic] reads the file of that
    name next to [public], not inside it. *)
Lemma fullPath_escapes :
  dirname E ≠ EmptyString →
  fullPath E "../server.js" = join [dirname E; "server.js"].
Proof.
  intros Hd. unfold fullPath, join.
  rewrite !filter_cons_True by (exact Hd || discriminate). rewrite filter_nil.
  exact (normalize_public_up (dirname E) "s" "erver.js" Hd).
Qed.

(** C7. A GET for [/..%2fserver.js] is not answered from inside the
    asset root: the URL parser keeps the escaped slash, the handler
    decodes it, and [serveStatic] reads [server.js] in the directory
    above [public] and answers 200 with its content. *)
Theorem static_serves_file_outside_public w hs f data :
  dirname E ≠ EmptyString →
  readFile E (join [dirname E; "server.js"]) = Some data →
  server E {| method := "GET"; url_pathname := URL_pathname "/..%2fserver.js";
              req_headers := hs; form := f |} w =
    (inr {| statusCode := 200;
            headers := [("Content-Type", getContentType (join [dirname E; "server.js"]))];
            body := data |}, w)
  ∧ fullPath E (filePath "/../server.js") = join [dirname E; "server.js"].
Proof.
  intros Hd Hfile.
  assert (Hp : fullPath E (filePath "/../server.js") = join [dirname E; "server.js"])
    by exact (fullPath_escapes Hd).
  split; [| exact Hp].
  unfold server. run ltac:(reflexivity).
  change (serveStatic E (filePath "/../server.js") w = (inr {| statusCode := 200;
            headers := [("Content-Type", getContentType (join [dirname E; "server.js"]))];
            body := data |}, w)).
  unfold serveStatic. rewrite Hp, Hfile. reflexivity.
Qed.

End Static.

Lemma static_serves_file_outside_public_witness :
  server Deployment.env0 (Deployment.get "/..%2fserver.js") Deployment.world0 =
    (inr {| statusCode := 200;
            headers := [("Content-Type", "text/javascript; charset=utf-8")];
            body := "const http = require('http');" |}, Deployment.world0)
  ∧ fullPath Deployment.env0 (filePath "/../server.js") = "/srv/app/server.js".
Proof.
  apply (static_serves_file_outside_public Deployment.env0 Deployment.world0
           {[ "host" := "masterclass.example" ]} ∅ "const http = require('http');").
  - discriminate.
  - reflexivity.
Defined.

(** ** Further properties of the scheduler *)
Section SchedulerMore.

Context (E : env).

(** X1. A call of [scheduleEmail] never throws, reads the clock once
    and makes exactly one attempt for the mail it was given: the mail
    is sent at once, or one timer is armed for it. *)
Theorem scheduleEmail_makes_one_attempt eventDate offsetMs to subject html w :
  ∃ e, scheduleEmail E eventDate offsetMs to subject html w = (inr (), stamped w e)
       ∧ concerns {| to := to; subject := subject; html := html |} e.
Proof.
  rewrite scheduleEmail_job. eexists. split; [reflexivity |].
  unfold job, concerns. destruct (nle _ 0); [left; reflexivity | right; eauto].
Qed.

(** X2. When eventTime + offset is a time value ahead of the clock by
    no more than the longest delay the timers keep, 2^31-1 ms, the
    call sends nothing and arms one timer whose delay is the time that
    remains; the timers keep that delay as it is, so the timer is due
    at eventTime + offset and the mail leaves then or later, not
    before. *)
Theorem scheduleEmail_near_future_fires_on_time eventTime offsetMs to subject html w :
  clock E (ticks w) < eventTime + offsetMs →
  eventTime + offsetMs - clock E (ticks w) ≤ TIMEOUT_MAX →
  Z.abs (eventTime + offsetMs) ≤ maxTime →
  scheduleEmail E (Some eventTime) offsetMs to subject html w =
    (inr (), stamped w (SetTimeout {| to := to; subject := subject; html := html |}
                          (Some (eventTime + offsetMs - clock E (ticks w)))))
  ∧ fires_at (clock E (ticks w)) (Some (eventTime + offsetMs - clock E (ticks w))) =
      eventTime + offsetMs.
Proof.
  intros Hlt Hmax Hr. split.
  - apply (scheduleEmail_future_arms_timer E (Some eventTime) offsetMs to subject html w
             (eventTime + offsetMs)); [apply sendTime_sum, Hr | exact Hlt].
  - apply fires_at_kept; assumption.
Qed.

(** X3. When no send time can be computed, the event being an Invalid
    Date or the sum lying outside the range of time values, the mail
    is neither sent within the call nor dropped: a timer is armed with
    NaN for its delay, which fires 1 ms later. *)
Theorem scheduleEmail_without_send_time_fires_next_ms
    eventDate offsetMs to subject html w :
  getTime (new_Date (nadd (getTime eventDate) offsetMs)) = NaN →
  scheduleEmail E eventDate offsetMs to subject html w =
    (inr (), stamped w (SetTimeout {| to := to; subject := subject; html := html |} NaN))
  ∧ fires_at (clock E (ticks w)) NaN = clock E (ticks w) + 1.
Proof.
  intros Hs. split; [| reflexivity].
  rewrite scheduleEmail_job. unfold job. rewrite Hs. reflexivity.
Qed.

End SchedulerMore.

Lemma scheduleEmail_near_future_fires_on_time_witness :
  scheduleEmail Deployment.env0 (Some Deployment.session) (-86400000)
    (to Deployment.reminder) (subject Deployment.reminder) (html Deployment.reminder)
    Deployment.world0 =
  (inr (), stamped Deployment.world0 (SetTimeout Deployment.reminder (Some 1872000000)))
  ∧ fires_at Deployment.started (Some 1872000000) = 1755878400000.
Proof.
  apply (scheduleEmail_near_future_fires_on_time Deployment.env0 Deployment.session
           (-86400000) (to Deployment.reminder) (subject Deployment.reminder)
           (html Deployment.reminder) Deployment.world0).
  - vm_compute. reflexivity.
  - vm_compute. discriminate.
  - vm_compute. discriminate.
Defined.

Lemma scheduleEmail_without_send_time_fires_next_ms_witness :
  scheduleEmail Deployment.env0 (Some maxTime) 3600000
    (to Deployment.reminder) (subject Deployment.reminder) (html Deployment.reminder)
    Deployment.world0 =
  (inr (), stamped Deployment.world0 (SetTimeout Deployment.reminder NaN))
  ∧ fires_at Deployment.started NaN = Deployment.started + 1.
Proof.
  apply (scheduleEmail_without_send_time_fires_next_ms Deployment.env0 (Some maxTime) 3600000
           (to Deployment.reminder) (subject Deployment.reminder) (html Deployment.reminder)
           Deployment.world0).
  reflexivity.
Defined.

(** ** Further properties of the request handler *)
Section HandlerMore.

Context (E : env).

Local Opaque iso_string urlencoded encodeURIComponent.

(** A form is complete or a required field is missing. *)
Lemma complete_or_missing req :
  complete req ∨ ∃ k, k ∈ ["firstName"; "email"; "session"; "consent"] ∧ missing req k.
Proof.
  unfold complete.
  destruct (falsy (form req !! "firstName")) eqn:H1;
    [right; exists "firstName"; split; [set_solver | by apply falsy_missing] |].
  destruct (falsy (form req !! "email")) eqn:H2;
    [right; exists "email"; split; [set_solver | by apply falsy_missing] |].
  destruct (falsy (form req !! "session")) eqn:H3;
    [right; exists "session"; split; [set_solver | by apply falsy_missing] |].
  destruct (falsy (form req !! "consent")) eqn:H4;
    [right; exists "consent"; split; [set_solver | by apply falsy_missing] |].
  left. rewrite <- !falsy_missing. rewrite H1, H2, H3, H4. repeat split; discriminate.
Qed.

Lemma complete_not_missing req k :
  complete req → k ∈ ["firstName"; "email"; "session"; "consent"] → ¬ missing req k.
Proof.
  intros (H1 & H2 & H3 & H4) Hk.
  repeat (apply elem_of_cons in Hk as [-> | Hk]); try assumption.
  by apply elem_of_nil in Hk.
Qed.

(** Once the path is decoded the handler picks its branch. *)
Lemma server_decoded req w p :
  decodeURIComponent (url_pathname req) = inr p →
  server E req w =
    (if bool_decide (method req = "POST") && bool_decide (p = "/register")
     then register E req
     else if bool_decide (method req = "GET")
     then serveStatic E (filePath p)
     else mret not_found) w.
Proof.
  intros Hd. unfold server. rewrite Hd. run ltac:(reflexivity). reflexivity.
Qed.

(** What [decodeURIComponent] throws is a URIError. *)
Lemma decodeURIComponent_error s e : decodeURIComponent s = inl e → e = URIError.
Proof.
  unfold decodeURIComponent.
  destruct (uri_items s ≫= uri_decode 0 128 191); [discriminate | intros [= <-]; reflexivity].
Qed.

(** A path that does not decode stops the handler before it routes. *)
Lemma server_undecoded req w e :
  decodeURIComponent (url_pathname req) = inl e → server E req w = (inl e, w).
Proof.
  intros Hd. unfold server. rewrite Hd. stop ltac:(reflexivity). reflexivity.
Qed.

(** Away from POST /register the handler answers from the static
    files or with the fallback, or throws: on a malformed escape in
    the path, or on a file name that [fs.readFile] refuses. *)
Lemma server_elsewhere req w :
  ¬ posts_register req →
  (∃ e, server E req w = (inl e, w) ∧ (e = TypeError ∨ e = URIError))
  ∨ ∃ r, server E req w = (inr r, w) ∧ (statusCode r = 200 ∨ statusCode r = 404).
Proof.
  intros Hn.
  destruct (decodeURIComponent (url_pathname req)) as [e|p] eqn:Hd.
  - left. exists e. split; [apply server_undecoded, Hd |].
    right. apply (decodeURIComponent_error _ _ Hd).
  - rewrite (server_decoded req w p Hd).
    destruct (bool_decide (method req = "POST") && bool_decide (p = "/register")) eqn:Hb.
    { exfalso. apply Hn. apply andb_true_iff in Hb as [Hm Hp].
      apply bool_decide_eq_true in Hm, Hp. subst p. split; assumption. }
    destruct (bool_decide (method req = "GET")).
    + unfold serveStatic. destruct (readFile E (fullPath E (filePath p))).
      * right. eexists. split; [reflexivity | left; reflexivity].
      * destruct (has_NUL (fullPath E (filePath p))).
        -- left. exists TypeError. split; [reflexivity | left; reflexivity].
        -- right. eexists. split; [reflexivity | right; reflexivity].
    + right. eexists. split; [reflexivity | right; reflexivity].
Qed.

(** The request is a POST to /register or it is not. *)
Lemma posts_register_or_not req : posts_register req ∨ ¬ posts_register req.
Proof.
  unfold posts_register.
  destruct (decide (method req = "POST")) as [Hm|Hm]; [| right; tauto].
  destruct (decodeURIComponent (url_pathname req)) as [e|p]; [right; intros [_ ?]; discriminate |].
  destruct (decide (p = "/register")) as [->|Hp]; [left; done |].
  right. intros [_ [= ?]]. contradiction.
Qed.

(** The five courses [register] can take on a complete form. *)
Ltac register_cases req w Hc :=
  let t := fresh "t" in
  let items := fresh "items" in
  let href := fresh "href" in
  destruct (Date_of E (field req "session")) as [t|] eqn:Hd;
  [ destruct (stored_list (reg_file w)) as [items|] eqn:Hs;
    [ destruct (REG_FILE_writable E) eqn:Hw;
      [ destruct (URL_href E "/masterclass.html" (baseUrl E req)) as [href|] eqn:Hu;
        [ pose proof (register_accepts E req w t items href Hc Hd Hs Hw Hu) as Hrun
        | pose proof (register_link_fails E req w t items Hc Hd Hs Hw Hu) as Hrun ]
      | pose proof (register_write_fails E req w t items Hc Hd Hs Hw) as Hrun ]
    | pose proof (register_bad_store E req w t Hc Hd Hs) as Hrun ]
  | pose proof (register_invalid_date E req w Hc Hd) as Hrun ].

(** A 302 comes from the last line of [register] and from nowhere
    else. *)
Lemma found_only_when_accepted req w r :
  outcome (server E req) w = inr r →
  statusCode r = 302 →
  posts_register req ∧ complete req
  ∧ ∃ t items href,
      Date_of E (field req "session") = Some t
      ∧ stored_list (reg_file w) = Some items
      ∧ REG_FILE_writable E = true
      ∧ URL_href E "/masterclass.html" (baseUrl E req) = Some href
      ∧ r = redirect req t.
Proof.
  unfold outcome. intros Hout Hst.
  destruct (posts_register_or_not req) as [Hpost|Hn].
  2:{ exfalso. destruct (server_elsewhere req w Hn) as [(e & Hrun & _) | (r' & Hrun & Hr')];
        rewrite Hrun in Hout; cbn in Hout; [discriminate Hout |].
      injection Hout as ->. destruct Hr' as [Hr'|Hr']; rewrite Hr' in Hst; discriminate Hst. }
  split; [exact Hpost |].
  rewrite (server_register E req w Hpost) in *.
  destruct (complete_or_missing req) as [Hc | (k & Hk & Hm)].
  2:{ exfalso. rewrite (register_rejects E req w k Hk Hm) in Hout. cbn in Hout.
      injection Hout as <-. discriminate Hst. }
  split; [exact Hc |].
  register_cases req w Hc; rewrite Hrun in Hout; cbn in Hout; try discriminate Hout.
  injection Hout as <-. exists t, items, href. repeat split.
Qed.

(** X4. A POST to /register is answered with the 400 rejection exactly
    when one of firstName, email, session and consent is missing. *)
Theorem rejection_only_for_missing_field req w :
  posts_register req →
  outcome (server E req) w = inr rejection
  ↔ ∃ k, k ∈ ["firstName"; "email"; "session"; "consent"] ∧ missing req k.
Proof.
  intros Hpost. unfold outcome. rewrite (server_register E req w Hpost). split.
  - intros Hout. destruct (complete_or_missing req) as [Hc|Hm]; [| exact Hm].
    exfalso. register_cases req w Hc; rewrite Hrun in Hout; cbn in Hout;
      discriminate Hout.
  - intros (k & Hk & Hm). rewrite (register_rejects E req w k Hk Hm). reflexivity.
Qed.

(** X5. A complete form is answered with the redirect when its session
    parses, the store holds a list or cannot be read, the store can be
    written, and the link can be built; in every other case the
    handler throws and the client gets no answer. *)
Theorem complete_form_is_redirected_or_throws req w :
  posts_register req →
  complete req →
  match Date_of E (field req "session"), stored_list (reg_file w), REG_FILE_writable E,
        URL_href E "/masterclass.html" (baseUrl E req) with
  | Some t, Some _, true, Some _ => outcome (server E req) w = inr (redirect req t)
  | _, _, _, _ => ∃ e, outcome (server E req) w = inl e
  end.
Proof.
  intros Hpost Hc. unfold outcome. rewrite (server_register E req w Hpost).
  register_cases req w Hc; rewrite Hrun; cbn; eauto.
Qed.

(** X6. Whatever the request, a 302 is answered only to a complete
    POST to /register, and only once the record is appended to the
    store and the confirmation, the five jobs and the notice are
    made. *)
Theorem redirect_means_persisted_and_notified req w r :
  outcome (server E req) w = inr r →
  statusCode r = 302 →
  posts_register req ∧ complete req
  ∧ ∃ t items href,
      Date_of E (field req "session") = Some t
      ∧ stored_list (reg_file w) = Some items
      ∧ r = redirect req t
      ∧ reg_file (after (server E req) w) = Stored (JArr (items ++ [entry req t]))
      ∧ effects (after (server E req) w) =
          effects w ++ ledger E req t
            ++ [SendMail (confirmation req (link href t))]
            ++ jobs E (ticks w) (Some t) (reminders req (Some t) (link href t))
            ++ [SendMail (notice E req (Some t))].
Proof.
  intros Hout Hst.
  destruct (found_only_when_accepted req w r Hout Hst)
    as (Hpost & Hc & t & items & href & Hd & Hs & Hw & Hu & ->).
  split; [exact Hpost |]. split; [exact Hc |].
  exists t, items, href. unfold after. rewrite (server_register E req w Hpost).
  rewrite (register_accepts E req w t items href Hc Hd Hs Hw Hu). repeat split; assumption.
Qed.

(** X7. No request removes or changes a stored registration: when the
    store holds a list, after any request it holds the same list with
    at most one record added at the end. *)
Theorem stored_registrations_are_kept req w items :
  reg_file w = Stored (JArr items) →
  ∃ added, reg_file (after (server E req) w) = Stored (JArr (items ++ added))
           ∧ (length added ≤ 1)%nat.
Proof.
  intros Hf. unfold after.
  assert (Hkeep : ∀ x, server E req w = (x, w) →
            ∃ added, reg_file (server E req w).2 = Stored (JArr (items ++ added))
                     ∧ (length added ≤ 1)%nat).
  { intros x ->. exists []. rewrite app_nil_r. split; [exact Hf | cbn; lia]. }
  destruct (posts_register_or_not req) as [Hpost|Hn].
  2:{ destruct (server_elsewhere req w Hn) as [(e & Hrun & _) | (r' & Hrun & _)]; eauto. }
  destruct (complete_or_missing req) as [Hc | (k & Hk & Hm)].
  2:{ apply (Hkeep (inr rejection)). rewrite (server_register E req w Hpost).
      apply (register_rejects E req w k Hk Hm). }
  assert (Hl : stored_list (reg_file w) = Some items) by (rewrite Hf; reflexivity).
  rewrite (server_register E req w Hpost) in *.
  destruct (Date_of E (field req "session")) as [t|] eqn:Hd.
  2:{ eapply Hkeep, (register_invalid_date E req w Hc Hd). }
  destruct (REG_FILE_writable E) eqn:Hw.
  2:{ eapply Hkeep, (register_write_fails E req w t items Hc Hd Hl Hw). }
  exists [entry req t]. split; [| cbn; lia].
  apply (register_persists E req w t items Hc Hd Hl Hw).
Qed.

(** X9. Two accepted registrations, one after the other, leave their
    two records at the end of the store in the order of arrival, also
    when they are the same form twice: nothing is deduplicated. *)
Theorem registrations_are_kept_in_arrival_order req1 req2 w t1 t2 items :
  posts_register req1 → complete req1 → Date_of E (field req1 "session") = Some t1 →
  posts_register req2 → complete req2 → Date_of E (field req2 "session") = Some t2 →
  reg_file w = Stored (JArr items) →
  REG_FILE_writable E = true →
  reg_file (after (server E req2) (after (server E req1) w)) =
    Stored (JArr (items ++ [entry req1 t1; entry req2 t2])).
Proof.
  intros Hp1 Hc1 Ht1 Hp2 Hc2 Ht2 Hf Hw.
  assert (H1 : reg_file (after (server E req1) w) = Stored (JArr (items ++ [entry req1 t1]))).
  { unfold after. rewrite (server_register E req1 w Hp1).
    apply (register_persists E req1 w t1 items Hc1 Ht1); [| exact Hw]. rewrite Hf. reflexivity. }
  assert (H2 : reg_file (after (register E req2) (after (server E req1) w)) =
               Stored (JArr ((items ++ [entry req1 t1]) ++ [entry req2 t2]))).
  { apply (register_persists E req2 _ t2 (items ++ [entry req1 t1]) Hc2 Ht2); [| exact Hw].
    rewrite H1. reflexivity. }
  unfold after in H2 |- *. rewrite (server_register E req2 _ Hp2).
  rewrite H2, <- app_assoc. reflexivity.
Qed.

(** X10. When the link to the class cannot be built, the handler
    throws after the record was written and the ledger called: the
    registration is in the store, the client gets no answer, and no
    mail is sent nor any timer armed. *)
Theorem link_failure_leaves_record_without_mail req w t items :
  posts_register req →
  complete req →
  Date_of E (field req "session") = Some t →
  stored_list (reg_file w) = Some items →
  REG_FILE_writable E = true →
  URL_href E "/masterclass.html" (baseUrl E req) = None →
  outcome (server E req) w = inl TypeError
  ∧ reg_file (after (server E req) w) = Stored (JArr (items ++ [entry req t]))
  ∧ effects (after (server E req) w) = effects w ++ ledger E req t
  ∧ Forall (λ e, ¬ notifies e) (ledger E req t).
Proof.
  intros Hpost Hc Ht Hs Hw Hu. unfold outcome, after.
  rewrite (server_register E req w Hpost).
  rewrite (register_link_fails E req w t items Hc Ht Hs Hw Hu). repeat split.
  unfold ledger. destruct (airtableBase E); repeat constructor. intros [].
Qed.

(** The listener on a message whose URL is built. *)
Lemma requestListener_routed msg req w :
  request_of E msg = Some req → requestListener E msg w = server E req w.
Proof. intros H. unfold requestListener. rewrite H. reflexivity. Qed.

(** The listener on a message whose URL is refused. *)
Lemma requestListener_refused msg w :
  request_of E msg = None → requestListener E msg w = (inl TypeError, w).
Proof. intros H. unfold requestListener. rewrite H. reflexivity. Qed.

(** The method of the request is the method of the message. *)
Lemma request_of_method msg req : request_of E msg = Some req → method req = msg_method msg.
Proof.
  unfold request_of. destruct (new_URL E _ _); [| discriminate]. intros [= <-]. reflexivity.
Qed.

(** X8. A complete registration form whose session does not parse ends
    the process: the handler throws where the record is built, in the
    callback of the request body, and nothing catches it. The timers
    the process held for earlier registrants are gone with it, and no
    later request is served. *)
Theorem unparseable_session_ends_the_process msg req w :
  request_of E msg = Some req →
  posts_register req →
  complete req →
  Date_of E (field req "session") = None →
  serve E msg (Running w) = Exited w
  ∧ held (serve E msg (Running w)) = []
  ∧ ∀ msg', serve E msg' (serve E msg (Running w)) = Exited w.
Proof.
  intros Hreq Hpost Hc Hd.
  assert (Hrun : serve E msg (Running w) = Exited w).
  { unfold serve. rewrite (requestListener_routed msg req w Hreq).
    rewrite (server_register E req w Hpost), (register_invalid_date E req w Hc Hd).
    reflexivity. }
  rewrite Hrun. repeat split.
Qed.

(** X15. A request that is not a POST to /register writes no store,
    sends no mail and arms no timer. Either it is answered, with 200
    or 404, and the process goes on as it was; or the handler throws,
    a TypeError where the URL is built or the file is read, a URIError
    where the path is decoded, and the process ends. *)
Theorem only_register_changes_the_world msg w :
  ¬ posts_to_register E msg →
  after (requestListener E msg) w = w
  ∧ ((∃ r, outcome (requestListener E msg) w = inr r
           ∧ (statusCode r = 200 ∨ statusCode r = 404)
           ∧ serve E msg (Running w) = Running w)
     ∨ (∃ e, outcome (requestListener E msg) w = inl e
             ∧ (e = TypeError ∨ e = URIError)
             ∧ serve E msg (Running w) = Exited w)).
Proof.
  intros Hn. unfold after, outcome, serve.
  destruct (request_of E msg) as [req|] eqn:Hreq.
  - rewrite (requestListener_routed msg req w Hreq).
    assert (Hnr : ¬ posts_register req) by (intros Hp; apply Hn; exists req; done).
    destruct (server_elsewhere req w Hnr) as [(e & Hrun & He) | (r & Hrun & Hr)];
      rewrite Hrun; (split; [reflexivity |]).
    + right. exists e. done.
    + left. exists r. done.
  - rewrite (requestListener_refused msg w Hreq). split; [reflexivity |].
    right. exists TypeError. split; [reflexivity |]. split; [by left | reflexivity].
Qed.

(** X16. A request whose method is not GET and which is not a POST to
    /register changes nothing and, whatever its path, gets the
    fallback answer, 404 with the text Page non trouvée, once its URL
    is built and its path decoded; the handler throws a TypeError
    when the URL constructor refuses the target or the Host header,
    and a URIError when the path holds a malformed escape. *)
Theorem other_methods_get_not_found msg w :
  msg_method msg ≠ "GET" →
  ¬ posts_to_register E msg →
  requestListener E msg w = (fallback E msg, w)
  ∧ (∀ req p, request_of E msg = Some req →
       decodeURIComponent (url_pathname req) = inr p →
       fallback E msg = inr not_found)
  ∧ (∀ req e, request_of E msg = Some req →
       decodeURIComponent (url_pathname req) = inl e →
       fallback E msg = inl URIError)
  ∧ (request_of E msg = None → fallback E msg = inl TypeError).
Proof.
  intros Hget Hn. unfold fallback.
  destruct (request_of E msg) as [req|] eqn:Hreq.
  2:{ split; [apply (requestListener_refused msg w Hreq) |].
      split; [discriminate |]. split; [discriminate | reflexivity]. }
  rewrite (requestListener_routed msg req w Hreq).
  assert (Hnr : ¬ posts_register req) by (intros Hp; apply Hn; exists req; done).
  destruct (decodeURIComponent (url_pathname req)) as [e|p] eqn:Hd.
  - split; [apply server_undecoded, Hd |].
    split; [intros ? ? [= <-]; rewrite Hd; discriminate |].
    split; [| discriminate].
    intros ? ? [= <-] _. rewrite (decodeURIComponent_error _ _ Hd). reflexivity.
  - split.
    + rewrite (server_decoded req w p Hd).
      destruct (bool_decide (method req = "POST") && bool_decide (p = "/register")) eqn:Hb.
      { exfalso. apply Hnr. apply andb_true_iff in Hb as [Hm Hp].
        apply bool_decide_eq_true in Hm, Hp. subst p. split; assumption. }
      rewrite bool_decide_false; [reflexivity |].
      rewrite (request_of_method msg req Hreq). exact Hget.
    + split; [reflexivity |]. split; [| discriminate].
      intros ? ? [= <-]. rewrite Hd. discriminate.
Qed.

End HandlerMore.

Lemma rejection_only_for_missing_field_witness :
  outcome (server Deployment.env0 Deployment.no_consent) Deployment.world0 = inr rejection
  ↔ ∃ k, k ∈ ["firstName"; "email"; "session"; "consent"] ∧ missing Deployment.no_consent k.
Proof.
  apply (rejection_only_for_missing_field Deployment.env0 Deployment.no_consent
           Deployment.world0).
  split; reflexivity.
Defined.

Lemma complete_form_is_redirected_or_throws_witness :
  outcome (server Deployment.env0 Deployment.ada) Deployment.world0 =
    inr (redirect Deployment.ada Deployment.session).
Proof.
  apply (complete_form_is_redirected_or_throws Deployment.env0 Deployment.ada
           Deployment.world0).
  - split; reflexivity.
  - repeat split; present.
Defined.

(** The same form where the store is a directory: no answer. *)
Example complete_form_throws_on_locked_store :
  outcome (server Deployment.env_locked Deployment.ada) Deployment.locked =
    inl SystemError.
Proof. vm_compute. reflexivity. Qed.

Lemma redirect_means_persisted_and_notified_witness :
  posts_register Deployment.ada ∧ complete Deployment.ada
  ∧ ∃ t items href,
      Date_of Deployment.env0 (field Deployment.ada "session") = Some t
      ∧ stored_list (reg_file Deployment.world0) = Some items
      ∧ redirect Deployment.ada Deployment.session = redirect Deployment.ada t
      ∧ reg_file (after (server Deployment.env0 Deployment.ada) Deployment.world0) =
          Stored (JArr (items ++ [entry Deployment.ada t]))
      ∧ effects (after (server Deployment.env0 Deployment.ada) Deployment.world0) =
          effects Deployment.world0 ++ ledger Deployment.env0 Deployment.ada t
            ++ [SendMail (confirmation Deployment.ada (link href t))]
            ++ jobs Deployment.env0 (ticks Deployment.world0) (Some t)
                 (reminders Deployment.ada (Some t) (link href t))
            ++ [SendMail (notice Deployment.env0 Deployment.ada (Some t))].
Proof.
  apply (redirect_means_persisted_and_notified Deployment.env0 Deployment.ada
           Deployment.world0 (redirect Deployment.ada Deployment.session)).
  - vm_compute. reflexivity.
  - reflexivity.
Defined.

Lemma stored_registrations_are_kept_witness :
  ∃ added,
    reg_file (after (server Deployment.env0 Deployment.ada) Deployment.enrolled) =
      Stored (JArr ([record (VStr "Grace") (VStr "") (VStr "grace@example.org")
                       "2025-08-22T09:30:00.000Z"] ++ added))
    ∧ (length added ≤ 1)%nat.
Proof.
  apply (stored_registrations_are_kept Deployment.env0 Deployment.ada Deployment.enrolled
           [record (VStr "Grace") (VStr "") (VStr "grace@example.org")
              "2025-08-22T09:30:00.000Z"]).
  reflexivity.
Defined.

Lemma registrations_are_kept_in_arrival_order_witness :
  reg_file (after (server Deployment.env0 Deployment.ada)
              (after (server Deployment.env0 Deployment.ada) Deployment.world0)) =
    Stored (JArr ([] ++ [entry Deployment.ada Deployment.session;
                         entry Deployment.ada Deployment.session])).
Proof.
  apply (registrations_are_kept_in_arrival_order Deployment.env0 Deployment.ada
           Deployment.ada Deployment.world0 Deployment.session Deployment.session []).
  - split; reflexivity.
  - repeat split; present.
  - vm_compute. reflexivity.
  - split; reflexivity.
  - repeat split; present.
  - vm_compute. reflexivity.
  - reflexivity.
  - reflexivity.
Defined.

Lemma link_failure_leaves_record_without_mail_witness :
  outcome (server Deployment.env_no_scheme Deployment.ada) Deployment.world0 = inl TypeError
  ∧ reg_file (after (server Deployment.env_no_scheme Deployment.ada) Deployment.world0) =
      Stored (JArr ([] ++ [entry Deployment.ada Deployment.session]))
  ∧ effects (after (server Deployment.env_no_scheme Deployment.ada) Deployment.world0) =
      effects Deployment.world0
        ++ ledger Deployment.env_no_scheme Deployment.ada Deployment.session
  ∧ Forall (λ e, ¬ notifies e)
      (ledger Deployment.env_no_scheme Deployment.ada Deployment.session).
Proof.
  apply (link_failure_leaves_record_without_mail Deployment.env_no_scheme Deployment.ada
           Deployment.world0 Deployment.session []).
  - split; reflexivity.
  - repeat split; present.
  - vm_compute. reflexivity.
  - reflexivity.
  - reflexivity.
  - reflexivity.
Defined.

(** [ada] has registered and her five reminders are armed; then the
    form of [vague] arrives. *)
Lemma unparseable_session_ends_the_process_witness :
  serve Deployment.env0 Deployment.vague_message (Running Deployment.busy) =
    Exited Deployment.busy
  ∧ held (serve Deployment.env0 Deployment.vague_message (Running Deployment.busy)) = []
  ∧ ∀ msg', serve Deployment.env0 msg'
              (serve Deployment.env0 Deployment.vague_message (Running Deployment.busy)) =
            Exited Deployment.busy.
Proof.
  apply (unparseable_session_ends_the_process Deployment.env0 Deployment.vague_message
           Deployment.vague Deployment.busy).
  - reflexivity.
  - split; reflexivity.
  - repeat split; present.
  - vm_compute. reflexivity.
Defined.

Example five_timers_held_before :
  length (held (Running Deployment.busy)) = 5%nat.
Proof. vm_compute. reflexivity. Qed.

Lemma only_register_changes_the_world_witness :
  after (requestListener Deployment.env0 (Deployment.incoming "GET" "/index.html" []))
    Deployment.world0 = Deployment.world0
  ∧ ((∃ r, outcome (requestListener Deployment.env0
                      (Deployment.incoming "GET" "/index.html" [])) Deployment.world0 = inr r
           ∧ (statusCode r = 200 ∨ statusCode r = 404)
           ∧ serve Deployment.env0 (Deployment.incoming "GET" "/index.html" [])
               (Running Deployment.world0) = Running Deployment.world0)
     ∨ (∃ e, outcome (requestListener Deployment.env0
                        (Deployment.incoming "GET" "/index.html" [])) Deployment.world0 = inl e
             ∧ (e = TypeError ∨ e = URIError)
             ∧ serve Deployment.env0 (Deployment.incoming "GET" "/index.html" [])
                 (Running Deployment.world0) = Exited Deployment.world0)).
Proof.
  apply (only_register_changes_the_world Deployment.env0
           (Deployment.incoming "GET" "/index.html" []) Deployment.world0).
  intros (req & Hreq & Hm & _). vm_compute in Hreq. injection Hreq as <-.
  discriminate Hm.
Defined.

(** Three requests that end the process: the target [//], a malformed
    escape, a path with a NUL byte. *)
Example requests_that_end_the_process :
  serve Deployment.env0 (Deployment.incoming "GET" "//" []) (Running Deployment.busy) =
    Exited Deployment.busy
  ∧ serve Deployment.env0 (Deployment.incoming "GET" "/%" []) (Running Deployment.busy) =
      Exited Deployment.busy
  ∧ serve Deployment.env0 (Deployment.incoming "GET" "/%00" []) (Running Deployment.busy) =
      Exited Deployment.busy.
Proof. repeat split; vm_compute; reflexivity. Qed.

Lemma other_methods_get_not_found_witness :
  requestListener Deployment.env0 (Deployment.incoming "POST" "/track-complete" [])
    Deployment.world0 =
    (fallback Deployment.env0 (Deployment.incoming "POST" "/track-complete" []),
     Deployment.world0)
  ∧ (∀ req p, request_of Deployment.env0 (Deployment.incoming "POST" "/track-complete" [])
                = Some req →
       decodeURIComponent (url_pathname req) = inr p →
       fallback Deployment.env0 (Deployment.incoming "POST" "/track-complete" []) =
         inr not_found)
  ∧ (∀ req e, request_of Deployment.env0 (Deployment.incoming "POST" "/track-complete" [])
                = Some req →
       decodeURIComponent (url_pathname req) = inl e →
       fallback Deployment.env0 (Deployment.incoming "POST" "/track-complete" []) =
         inl URIError)
  ∧ (request_of Deployment.env0 (Deployment.incoming "POST" "/track-complete" []) = None →
     fallback Deployment.env0 (Deployment.incoming "POST" "/track-complete" []) =
       inl TypeError).
Proof.
  apply (other_methods_get_not_found Deployment.env0
           (Deployment.incoming "POST" "/track-complete" []) Deployment.world0).
  - discriminate.
  - intros (req & Hreq & _ & Hp). vm_compute in Hreq. injection Hreq as <-.
    vm_compute in Hp. discriminate Hp.
Defined.

Example fallback_answers :
  requestListener Deployment.env0 (Deployment.incoming "DELETE" "/register" [])
    Deployment.world0 = (inr not_found, Deployment.world0)
  ∧ requestListener Deployment.env0 (Deployment.incoming "DELETE" "/%" [])
      Deployment.world0 = (inl URIError, Deployment.world0)
  ∧ requestListener Deployment.env0 (Deployment.incoming "DELETE" "//" [])
      Deployment.world0 = (inl TypeError, Deployment.world0).
Proof. repeat split; vm_compute; reflexivity. Qed.

(** ** When the reminders of a registration leave *)
Section RegistrationTiming.

Context (E : env).

(** The job of an offset whose send time is not after the clock is a
    send. *)
Lemma job_past now t offsetMs m :
  Z.abs (t + offsetMs) ≤ maxTime → t + offsetMs ≤ now →
  job now (Some t) offsetMs m = SendMail m.
Proof.
  intros Hr Hle. unfold job. rewrite (sendTime_sum t offsetMs Hr). cbn.
  rewrite bool_decide_true by lia. reflexivity.
Qed.

(** The job of an offset whose send time is after the clock is a timer
    for the time that remains. *)
Lemma job_future now t offsetMs m :
  Z.abs (t + offsetMs) ≤ maxTime → now < t + offsetMs →
  job now (Some t) offsetMs m = SetTimeout m (Some (t + offsetMs - now)).
Proof.
  intros Hr Hlt. unfold job. rewrite (sendTime_sum t offsetMs Hr). cbn.
  rewrite bool_decide_false by lia. reflexivity.
Qed.

(** X11. A registration accepted an hour or more after its session,
    for a session at least a day inside the range of time values
    (no closer than 24 h to 8.64e15 ms from the epoch, on either
    side), sends all five reminders at once, the one for the day
    before included: seven mails leave within the request and no timer
    is armed. *)
Theorem late_registration_sends_every_reminder_at_once req w t items href :
  posts_register req →
  complete req →
  Date_of E (field req "session") = Some t →
  stored_list (reg_file w) = Some items →
  REG_FILE_writable E = true →
  URL_href E "/masterclass.html" (baseUrl E req) = Some href →
  Z.abs t + 86400000 ≤ maxTime →
  (∀ i, (i < 5)%nat → t + 3600000 ≤ clock E (ticks w + i)) →
  effects (after (server E req) w) =
    effects w ++ ledger E req t
      ++ [SendMail (confirmation req (link href t))]
      ++ (SendMail <$> (reminders req (Some t) (link href t)).*2)
      ++ [SendMail (notice E req (Some t))].
Proof.
  intros Hpost Hc Ht Hs Hw Hu Hrange Hlate. unfold after.
  rewrite (server_register E req w Hpost).
  rewrite (register_accepts E req w t items href Hc Ht Hs Hw Hu). cbn [snd effects].
  do 3 f_equal. cbv beta iota zeta delta [jobs reminders imap fst snd compose].
  pose proof (Hlate 0%nat ltac:(lia)). pose proof (Hlate 1%nat ltac:(lia)).
  pose proof (Hlate 2%nat ltac:(lia)). pose proof (Hlate 3%nat ltac:(lia)).
  pose proof (Hlate 4%nat ltac:(lia)).
  unfold compose.
  rewrite !job_past by lia. reflexivity.
Qed.

(** X12. A registration accepted more than a day before its session,
    and not more than 2^31-1 ms before its last reminder, for a
    session at least a day inside the range of time values, sends no
    reminder at once: five timers are armed, each with the time that
    remains to its send time for delay. The timers keep such delays
    as they are: each is due at session + offset, and its mail leaves
    then or later, not before. *)
Theorem early_registration_arms_five_timers req w t items href :
  posts_register req →
  complete req →
  Date_of E (field req "session") = Some t →
  stored_list (reg_file w) = Some items →
  REG_FILE_writable E = true →
  URL_href E "/masterclass.html" (baseUrl E req) = Some href →
  Z.abs t + 86400000 ≤ maxTime →
  (∀ i, (i < 5)%nat → clock E (ticks w + i) < t - 86400000) →
  (∀ i, (i < 5)%nat → t + 3600000 - clock E (ticks w + i) ≤ TIMEOUT_MAX) →
  effects (after (server E req) w) =
    effects w ++ ledger E req t
      ++ [SendMail (confirmation req (link href t))]
      ++ imap (λ i r, SetTimeout r.2 (Some (t + r.1 - clock E (ticks w + i))))
           (reminders req (Some t) (link href t))
      ++ [SendMail (notice E req (Some t))]
  ∧ ∀ i r, reminders req (Some t) (link href t) !! i = Some r →
      fires_at (clock E (ticks w + i)) (Some (t + r.1 - clock E (ticks w + i))) = t + r.1.
Proof.
  intros Hpost Hc Ht Hs Hw Hu Hrange Hearly Hmax.
  pose proof (Hearly 0%nat ltac:(lia)). pose proof (Hearly 1%nat ltac:(lia)).
  pose proof (Hearly 2%nat ltac:(lia)). pose proof (Hearly 3%nat ltac:(lia)).
  pose proof (Hearly 4%nat ltac:(lia)).
  pose proof (Hmax 0%nat ltac:(lia)). pose proof (Hmax 1%nat ltac:(lia)).
  pose proof (Hmax 2%nat ltac:(lia)). pose proof (Hmax 3%nat ltac:(lia)).
  pose proof (Hmax 4%nat ltac:(lia)).
  split.
  - unfold after. rewrite (server_register E req w Hpost).
    rewrite (register_accepts E req w t items href Hc Ht Hs Hw Hu). cbn [snd effects].
    do 3 f_equal. cbv beta iota zeta delta [jobs reminders imap fst snd compose].
    rewrite !job_future by lia. reflexivity.
  - intros i r Hr. unfold reminders in Hr.
    do 5 (destruct i as [|i]; [injection Hr as <-; cbn [fst]; apply fires_at_kept; lia |]).
    discriminate Hr.
Qed.

End RegistrationTiming.

Lemma late_registration_sends_every_reminder_at_once_witness :
  effects (after (server Deployment.env_late Deployment.ada) Deployment.world0) =
    effects Deployment.world0
      ++ ledger Deployment.env_late Deployment.ada Deployment.session
      ++ [SendMail (confirmation Deployment.ada Deployment.join_link)]
      ++ (SendMail <$> (reminders Deployment.ada (Some Deployment.session)
                          Deployment.join_link).*2)
      ++ [SendMail (notice Deployment.env_late Deployment.ada (Some Deployment.session))].
Proof.
  apply (late_registration_sends_every_reminder_at_once Deployment.env_late Deployment.ada
           Deployment.world0 Deployment.session []
           "https://masterclass.example/masterclass.html").
  - split; reflexivity.
  - repeat split; present.
  - vm_compute. reflexivity.
  - reflexivity.
  - reflexivity.
  - reflexivity.
  - vm_compute. discriminate.
  - intros i _. cbn. lia.
Defined.

(** A session at the earliest time value, registered in 2025: the
    send times of the four reminders before the session are not time
    values, and four timers are armed with NaN for their delay. *)
Example earliest_session_arms_timers :
  (timers (effects (after (server Deployment.env_ancient Deployment.ancient)
                      Deployment.world0))).*2 = [NaN; NaN; NaN; NaN].
Proof. vm_compute. reflexivity. Qed.

Lemma early_registration_arms_five_timers_witness :
  effects (after (server Deployment.env0 Deployment.ada) Deployment.world0) =
    effects Deployment.world0 ++ ledger Deployment.env0 Deployment.ada Deployment.session
      ++ [SendMail (confirmation Deployment.ada Deployment.join_link)]
      ++ imap (λ i r, SetTimeout r.2
                        (Some (Deployment.session + r.1
                               - clock Deployment.env0 (ticks Deployment.world0 + i))))
           (reminders Deployment.ada (Some Deployment.session) Deployment.join_link)
      ++ [SendMail (notice Deployment.env0 Deployment.ada (Some Deployment.session))]
  ∧ ∀ i r,
      reminders Deployment.ada (Some Deployment.session) Deployment.join_link !! i = Some r →
      fires_at (clock Deployment.env0 (ticks Deployment.world0 + i))
        (Some (Deployment.session + r.1
               - clock Deployment.env0 (ticks Deployment.world0 + i))) =
      Deployment.session + r.1.
Proof.
  apply (early_registration_arms_five_timers Deployment.env0 Deployment.ada
           Deployment.world0 Deployment.session []
           "https://masterclass.example/masterclass.html").
  - split; reflexivity.
  - repeat split; present.
  - vm_compute. reflexivity.
  - reflexivity.
  - reflexivity.
  - reflexivity.
  - vm_compute. discriminate.
  - intros i Hi. cbn. unfold Deployment.started, Deployment.session. lia.
  - intros i Hi. cbn. unfold Deployment.started, Deployment.session, TIMEOUT_MAX. lia.
Defined.

(** ** The link and the redirect *)
Section Links.

Context (E : env).

(** X13. When APP_BASE_URL or BASE_URL is set, the base of the link
    mailed to the registrant is the same for every request. When
    neither is set and the request carries an x-forwarded-host header,
    the base is made of that header: the sender of the request picks
    the host of the mailed link. *)
Theorem base_url_is_configured_or_taken_from_the_request req :
  (is_set (APP_BASE_URL E) || is_set (BASE_URL E) = true →
   ∀ req', baseUrl E req = baseUrl E req')
  ∧ (is_set (APP_BASE_URL E) || is_set (BASE_URL E) = false →
     ∀ h, h ≠ EmptyString → req_headers req !! "x-forwarded-host" = Some h →
     baseUrl E req =
       default "http" (nonempty (req_headers req !! "x-forwarded-proto")) +:+ "://" +:+ h).
Proof.
  unfold baseUrl, is_set, nonempty. split.
  - intros Hset req'.
    destruct (APP_BASE_URL E) as [a|]; [case_bool_decide; [| reflexivity] |];
      (destruct (BASE_URL E) as [b|]; [case_bool_decide; [discriminate Hset | reflexivity]
                                      | discriminate Hset]).
  - intros Hunset h Hh Hhost.
    assert (Hb : getBaseUrl req =
                 default "http" (nonempty (req_headers req !! "x-forwarded-proto"))
                   +:+ "://" +:+ h).
    { unfold getBaseUrl, nonempty. rewrite Hhost. rewrite bool_decide_false by exact Hh.
      reflexivity. }
    destruct (APP_BASE_URL E) as [a|]; [case_bool_decide; [| discriminate Hunset] |];
      (destruct (BASE_URL E) as [b|]; [case_bool_decide; [exact Hb | discriminate Hunset]
                                      | exact Hb]).
Qed.

End Links.

Section Escaping.

(** A byte that [encodeURIComponent] lets through stands for itself
    in a URL component. *)
Lemma kept_byte_is_safe c :
  is_alnum c || one_of "-_.!~*'()" c = true → uri_safe c = true.
Proof.
  unfold uri_safe, one_of. intros H. apply orb_true_iff in H as [H|H].
  - rewrite H. reflexivity.
  - apply orb_true_iff. right. apply bool_decide_eq_true in H.
    apply bool_decide_eq_true.
    change (c ∈ list_ascii_of_string ("-_.!~*'()" +:+ "%")).
    rewrite list_ascii_of_string_app. apply elem_of_app. left. exact H.
Qed.

(** The two digits of an escape are digits or letters. *)
Lemma hexdigit_is_alnum n : 0 ≤ n < 16 → is_alnum (hexdigit n) = true.
Proof.
  intros Hn.
  assert (Hcases : n = 0 ∨ n = 1 ∨ n = 2 ∨ n = 3 ∨ n = 4 ∨ n = 5 ∨ n = 6 ∨ n = 7
                   ∨ n = 8 ∨ n = 9 ∨ n = 10 ∨ n = 11 ∨ n = 12 ∨ n = 13 ∨ n = 14
                   ∨ n = 15) by lia.
  repeat (destruct Hcases as [-> | Hcases]; [reflexivity |]). subst n. reflexivity.
Qed.

Lemma code_range c : 0 ≤ code c < 256.
Proof.
  unfold code. pose proof (N_ascii_bounded c). lia.
Qed.

(** An escape is made of safe bytes. *)
Lemma percent_byte_is_safe c :
  Forall (λ x, uri_safe x = true) (list_ascii_of_string (percent_byte c)).
Proof.
  pose proof (code_range c) as Hc. unfold percent_byte. cbn [list_ascii_of_string].
  repeat constructor.
  - unfold uri_safe. rewrite hexdigit_is_alnum; [reflexivity |].
    split; [apply Z.div_pos; lia | apply Z.div_lt_upper_bound; lia].
  - unfold uri_safe. rewrite hexdigit_is_alnum; [reflexivity |].
    apply Z.mod_pos_bound. lia.
Qed.

Lemma encodeURIComponent_is_safe s :
  Forall (λ x, uri_safe x = true) (list_ascii_of_string (encodeURIComponent s)).
Proof.
  unfold encodeURIComponent. induction s as [|c s IH]; [constructor |].
  cbn [map_bytes]. rewrite list_ascii_of_string_app. apply Forall_app. split; [| exact IH].
  destruct (is_alnum c || one_of "-_.!~*'()" c) eqn:Hk.
  - repeat constructor. apply kept_byte_is_safe, Hk.
  - apply percent_byte_is_safe.
Qed.

Context (E : env).

(** X14. Whenever the handler answers 302, its only header is a
    Location that carries the registrant's name and the session
    escaped: whatever was typed into the form, the two values hold
    only letters, digits, the marks [-_.!~*'()] and percent escapes,
    so they add no parameter, no fragment and no line to the
    header. *)
Theorem redirect_location_is_escaped req w r :
  outcome (server E req) w = inr r →
  statusCode r = 302 →
  ∃ name date,
    headers r = [("Location", "/confirm.html?name=" +:+ name +:+ "&date=" +:+ date)]
    ∧ Forall (λ c, uri_safe c = true) (list_ascii_of_string name)
    ∧ Forall (λ c, uri_safe c = true) (list_ascii_of_string date)
    ∧ name = encodeURIComponent (ToString (field req "firstName"))
    ∧ ∃ t, Date_of E (field req "session") = Some t
           ∧ date = encodeURIComponent (iso_string t).
Proof.
  intros Hout Hst.
  destruct (found_only_when_accepted E req w r Hout Hst)
    as (_ & _ & t & items & href & Hd & _ & _ & _ & ->).
  eexists _, _. split; [reflexivity |].
  split; [apply encodeURIComponent_is_safe |].
  split; [apply encodeURIComponent_is_safe |]. split; [reflexivity |].
  exists t. split; [exact Hd | reflexivity].
Qed.

End Escaping.

(** A first name made of a line break, a header and a parameter. *)
Lemma redirect_location_is_escaped_witness :
  ∃ name date,
    headers (redirect Deployment.mallory Deployment.session) =
      [("Location", "/confirm.html?name=" +:+ name +:+ "&date=" +:+ date)]
    ∧ Forall (λ c, uri_safe c = true) (list_ascii_of_string name)
    ∧ Forall (λ c, uri_safe c = true) (list_ascii_of_string date)
    ∧ name = encodeURIComponent (ToString (field Deployment.mallory "firstName"))
    ∧ ∃ t, Date_of Deployment.env0 (field Deployment.mallory "session") = Some t
           ∧ date = encodeURIComponent (iso_string t).
Proof.
  apply (redirect_location_is_escaped Deployment.env0 Deployment.mallory Deployment.world0
           (redirect Deployment.mallory Deployment.session)).
  - vm_compute. reflexivity.
  - reflexivity.
Defined.

Example location_of_mallory :
  outcome (server Deployment.env0 Deployment.mallory) Deployment.world0 =
    inr {| statusCode := 302;
           headers :=
             [("Location",
               "/confirm.html?name=x%0D%0ASet-Cookie%3A%20a%3Db%26date%3D1&date=2025-08-23T16%3A00%3A00.000Z")];
           body := EmptyString |}.
Proof. vm_compute. reflexivity. Qed.

(** ** Static files that stay inside the asset root *)
Section StaticInside.

Context (E : env).

(** What [normalizeString] has kept after some segments does not
    depend on the segments still to come. *)
Lemma normalizeString_app allow xs : ∀ acc,
  ∃ acc', ∀ ys, normalizeString allow acc (xs ++ ys) = normalizeString allow acc' ys.
Proof.
  induction xs as [|x xs IH]; intros acc; [exists acc; reflexivity |].
  destruct (bool_decide (x = "") || bool_decide (x = ".")) eqn:Hskip.
  { destruct (IH acc) as [acc' H]. exists acc'. intros ys.
    cbn [app normalizeString]. rewrite Hskip. apply H. }
  destruct (bool_decide (x = "..")) eqn:Hup.
  2:{ destruct (IH (x :: acc)) as [acc' H]. exists acc'. intros ys.
      cbn [app normalizeString]. rewrite Hskip, Hup. apply H. }
  destruct acc as [|top acc].
  { destruct (IH (if allow then [x] else [])) as [acc' H]. exists acc'. intros ys.
    cbn [app normalizeString]. rewrite Hskip, Hup. apply H. }
  destruct (bool_decide (top = "..")) eqn:Htop.
  - destruct (IH (x :: top :: acc)) as [acc' H]. exists acc'. intros ys.
    cbn [app normalizeString]. rewrite Hskip, Hup, Htop. apply H.
  - destruct (IH acc) as [acc' H]. exists acc'. intros ys.
    cbn [app normalizeString]. rewrite Hskip, Hup, Htop. apply H.
Qed.

(** Without a double dot nothing that was kept is dropped: the empty
    and the dot segments vanish, the others are added in order. *)
Lemma normalizeString_no_double_dot allow ys : ".." ∉ ys → ∀ acc,
  normalizeString allow acc ys =
    reverse acc ++ filter (λ s, s ≠ EmptyString ∧ s ≠ ".") ys.
Proof.
  induction ys as [|y ys IH]; intros Hno acc.
  { cbn. rewrite app_nil_r. reflexivity. }
  apply not_elem_of_cons in Hno as [Hy Hys].
  cbn [normalizeString].
  destruct (bool_decide (y = "") || bool_decide (y = ".")) eqn:Hskip.
  - rewrite (IH Hys). rewrite filter_cons_False; [reflexivity |].
    apply orb_true_iff in Hskip as [H|H]; apply bool_decide_eq_true in H; tauto.
  - rewrite bool_decide_false by (intros ->; contradiction).
    rewrite (IH Hys). rewrite reverse_cons, <- app_assoc.
    rewrite filter_cons_True; [reflexivity |].
    apply orb_false_iff in Hskip as [H1 H2].
    apply bool_decide_eq_false in H1, H2. tauto.
Qed.

Lemma string_app_nil_r (a : string) : a +:+ "" = a.
Proof.
  induction a as [|x a IH]; [reflexivity |].
  change (String x (a +:+ "") = String x a). f_equal. exact IH.
Qed.

(** Joining with a first piece that is itself a concatenation. *)
Lemma concat_head_app (u v : string) F :
  String.concat "/" ((u +:+ v) :: F) = u +:+ String.concat "/" (v :: F).
Proof.
  destruct F as [|f F]; [reflexivity |].
  change ((u +:+ v) +:+ "/" +:+ String.concat "/" (f :: F) =
          u +:+ v +:+ "/" +:+ String.concat "/" (f :: F)).
  rewrite <- string_app_assoc. reflexivity.
Qed.

(** Joining a list is joining its first part into one piece, then the
    rest. *)
Lemma concat_snoc_app A x F :
  String.concat "/" (A ++ x :: F) = String.concat "/" (String.concat "/" (A ++ [x]) :: F).
Proof.
  induction A as [|a A IH]; [reflexivity |].
  assert (Hstep : ∀ l, l ≠ [] →
            String.concat "/" (a :: l) = a +:+ "/" +:+ String.concat "/" l).
  { intros [|b l] Hl; [contradiction | reflexivity]. }
  cbn [app]. rewrite (Hstep (A ++ x :: F)) by (destruct A; discriminate).
  rewrite (Hstep (A ++ [x])) by (destruct A; discriminate).
  rewrite IH. rewrite !concat_head_app. reflexivity.
Qed.

Lemma concat_with_public_nonempty A F :
  String.concat "/" (A ++ "public" :: F) ≠ EmptyString.
Proof.
  rewrite concat_snoc_app.
  assert (Hp : String.concat "/" (A ++ ["public"]) ≠ EmptyString).
  { induction A as [|a A IH]; [discriminate |].
    cbn [app]. destruct (A ++ ["public"]) as [|b l] eqn:Hl; [destruct A; discriminate |].
    change (a +:+ "/" +:+ String.concat "/" (b :: l) ≠ ""). destruct a; discriminate. }
  destruct (String.concat "/" (A ++ ["public"])) as [|c s]; [contradiction |].
  destruct F; discriminate.
Qed.

(** The file a GET asks for always has a name. *)
Lemma filePath_nonempty p : filePath p ≠ EmptyString.
Proof.
  unfold filePath.
  destruct (bool_decide (p = "/")) eqn:H1; [discriminate |].
  destruct (bool_decide (p = "")) eqn:H2; [discriminate |]. cbn [orb].
  apply bool_decide_eq_false in H1, H2.
  destruct p as [|c p]; [contradiction |]. cbn [startsWith slice1].
  destruct (Ascii.eqb_spec c "/") as [->|Hc]; [| discriminate].
  intros ->. contradiction.
Qed.

Lemma filePath_no_double_dot p :
  ".." ∉ split is_slash p → ".." ∉ split is_slash (filePath p).
Proof.
  intros Hno. unfold filePath.
  destruct (bool_decide (p = "/") || bool_decide (p = "")); [compute_done |].
  destruct p as [|c p]; [exact Hno |]. cbn [startsWith slice1].
  destruct (Ascii.eqb_spec c "/") as [->|Hc]; [| exact Hno].
  change (split is_slash (String "/" p)) with (EmptyString :: split is_slash p) in Hno.
  apply not_elem_of_cons in Hno as [_ Hno]. exact Hno.
Qed.

(** X17. A GET whose decoded path has no double-dot segment is
    answered from inside the asset root: the file read is the public
    directory followed by the segments of the path, the empty and the
    dot segments left out, and nothing above it. *)
Theorem static_stays_inside_public_without_double_dot p :
  startsWith (dirname E) "/" = true →
  ".." ∉ split is_slash p →
  ∃ rest trailing,
    fullPath E (filePath p) =
      String.concat "/" (join [dirname E; "public"] :: rest) +:+ trailing
    ∧ rest = filter (λ s, s ≠ EmptyString ∧ s ≠ ".") (split is_slash (filePath p))
    ∧ (".." ∉ rest)
    ∧ (trailing = EmptyString ∨ trailing = "/").
Proof.
  intros Habs Hno. apply filePath_no_double_dot in Hno.
  pose proof (filePath_nonempty p) as Hfp.
  set (fp := filePath p) in *. set (d := dirname E) in *.
  assert (Hd : d ≠ EmptyString) by (destruct d; [discriminate Habs | discriminate]).
  destruct (normalizeString_app false (split is_slash d) []) as [acc Hacc].
  set (F := filter (λ s, s ≠ EmptyString ∧ s ≠ ".") (split is_slash fp)).
  (* the root *)
  assert (Hroot : join [d; "public"] =
                  "/" +:+ String.concat "/" (reverse acc ++ ["public"])).
  { unfold join. rewrite !filter_cons_True by (exact Hd || discriminate). rewrite filter_nil.
    change (String.concat "/" [d; "public"]) with (d +:+ String "/" "public").
    unfold normalize.
    rewrite bool_decide_false by (destruct d; [contradiction | discriminate]).
    replace (startsWith (d +:+ String "/" "public") "/") with true
      by (destruct d; [contradiction | symmetry; exact Habs]).
    rewrite endsWith_slash_app. cbn [negb].
    rewrite (split_app_sep is_slash d "/" "public") by reflexivity.
    rewrite Hacc.
    change (normalizeString false acc (split is_slash "public"))
      with (normalizeString false ("public" :: acc) []).
    cbn [normalizeString]. rewrite reverse_cons.
    rewrite bool_decide_false
      by (pose proof (concat_with_public_nonempty (reverse acc) []) as Hne; exact Hne).
    change (endsWith_slash "public") with false. cbn iota.
    rewrite string_app_nil_r. reflexivity. }
  (* the file *)
  exists F, (if endsWith_slash fp then "/" else EmptyString).
  split; [| split; [reflexivity | split]].
  - rewrite Hroot. unfold fullPath, join. fold d.
    rewrite !filter_cons_True by (exact Hd || exact Hfp || discriminate). rewrite filter_nil.
    change (String.concat "/" [d; "public"; fp]) with (d +:+ String "/" ("public/" +:+ fp)).
    unfold normalize.
    rewrite bool_decide_false by (destruct d; [contradiction | discriminate]).
    replace (startsWith (d +:+ String "/" ("public/" +:+ fp)) "/") with true
      by (destruct d; [contradiction | symmetry; exact Habs]).
    cbn [negb].
    rewrite (split_app_sep is_slash d "/" ("public/" +:+ fp)) by reflexivity.
    change (split is_slash ("public/" +:+ fp)) with ("public" :: split is_slash fp).
    rewrite Hacc.
    change (normalizeString false acc ("public" :: split is_slash fp))
      with (normalizeString false ("public" :: acc) (split is_slash fp)).
    rewrite (normalizeString_no_double_dot false (split is_slash fp) Hno).
    fold F. rewrite reverse_cons, <- app_assoc. cbn [app].
    rewrite bool_decide_false by apply concat_with_public_nonempty.
    assert (Hend : endsWith_slash (d +:+ String "/" ("public/" +:+ fp)) = endsWith_slash fp).
    { destruct fp as [|c fp']; [contradiction |].
      change (d +:+ String "/" ("public/" +:+ String c fp'))
        with (d +:+ "/public/" +:+ String c fp').
      rewrite string_app_assoc. apply endsWith_slash_app. }
    rewrite Hend. rewrite concat_snoc_app. rewrite concat_head_app. reflexivity.
  - unfold F. intros Hin. apply list_elem_of_filter in Hin as [_ Hin]. contradiction.
  - destruct (endsWith_slash fp); [right | left]; reflexivity.
Qed.

End StaticInside.

Lemma static_stays_inside_public_without_double_dot_witness :
  ∃ rest trailing,
    fullPath Deployment.env0 (filePath "/img/./logo.png") =
      String.concat "/" (join [dirname Deployment.env0; "public"] :: rest) +:+ trailing
    ∧ rest = filter (λ s, s ≠ EmptyString ∧ s ≠ ".")
               (split is_slash (filePath "/img/./logo.png"))
    ∧ (".." ∉ rest)
    ∧ (trailing = EmptyString ∨ trailing = "/").
Proof.
  apply (static_stays_inside_public_without_double_dot Deployment.env0 "/img/./logo.png").
  - reflexivity.
  - compute_done.
Defined.

Example fullPath_inside :
  fullPath Deployment.env0 (filePath "/img/./logo.png") = "/srv/app/public/img/logo.png".
Proof. vm_compute. reflexivity. Qed.

(** ** The tracking block, as written *)
Section TrackingBlock.

Context (E : env).

Local Opaque iso_string.

Lemma readViews_run w :
  readViews w = (inr (default ∅ (parse_file (views_file w))), w).
Proof. unfold readViews. run ltac:(reflexivity). reflexivity. Qed.

(** A name with an entry of its own is looked up in the store. *)
Lemma inherited_stored db token v : db !! token = Some v → inherited db token = false.
Proof.
  intros H. unfold inherited. rewrite bool_decide_false; [reflexivity |].
  rewrite H. discriminate.
Qed.

(** So is a name that no object inherits. *)
Lemma inherited_other db token : token ∉ Object_prototype → inherited db token = false.
Proof.
  intros H. unfold inherited. rewrite (bool_decide_false (token ∈ Object_prototype)) by exact H.
  apply andb_false_r.
Qed.

Lemma assign_own db token cur :
  inherited db token = false → assign db token cur = <[token := cur]> db.
Proof. intros H. unfold assign. rewrite H. reflexivity. Qed.

Lemma assign_inherited db token cur : inherited db token = true → assign db token cur = db.
Proof. intros H. unfold assign. rewrite H. reflexivity. Qed.

(** What [assign] leaves under a name. *)
Lemma lookup_assign db token cur u :
  assign db token cur !! u =
    if inherited db token then db !! u
    else if decide (token = u) then Some cur else db !! u.
Proof.
  unfold assign. destruct (inherited db token); [reflexivity |].
  destruct (decide (token = u)) as [->|Hne];
    [apply lookup_insert_eq | apply lookup_insert_ne, Hne].
Qed.

(** A ping without a token. *)
Lemma tracking_no_token pathname n w :
  tracking E pathname EmptyString n w = (inr no_content, w).
Proof.
  unfold tracking. run ltac:(apply readViews_run).
  destruct (bool_decide (pathname = "/track"));
    rewrite bool_decide_true by reflexivity;
    run ltac:(reflexivity); reflexivity.
Qed.

(** A ping for a token, on /track: the clock is read, and the store
    written when it can be. *)
Lemma tracking_track token n w :
  token ≠ EmptyString →
  let db := default ∅ (parse_file (views_file w)) in
  let cur := default {| watched := 0; completed := false; lastPing := None |}
               (db !! token) in
  tracking E "/track" token n w =
    if VIEWS_FILE_writable E
    then (inr no_content,
          {| reg_file := reg_file w;
             views_file :=
               Stored (assign db token
                         {| watched := Z.max (watched cur) (ToInt32 n);
                            completed := completed cur;
                            lastPing := Some (iso_string (clock E (ticks w))) |});
             effects := effects w;
             ticks := S (ticks w) |})
    else (inl SystemError,
          {| reg_file := reg_file w; views_file := views_file w;
             effects := effects w; ticks := S (ticks w) |}).
Proof.
  intros Hne db cur. unfold tracking.
  run ltac:(apply readViews_run).
  rewrite bool_decide_true by reflexivity.
  rewrite bool_decide_false by exact Hne.
  destruct (VIEWS_FILE_writable E) eqn:Hw.
  - run ltac:(run ltac:(reflexivity);
              unfold writeViews, put_views_file; rewrite Hw; reflexivity).
    reflexivity.
  - stop ltac:(run ltac:(reflexivity);
               unfold writeViews, put_views_file; rewrite Hw; reflexivity).
    reflexivity.
Qed.

(** The block keeps for a token the largest number of seconds it was
    given: for a token that is not a name every object inherits, and
    a store that can be written. *)
Lemma tracking_keeps_high_water_mark token n w db :
  token ≠ EmptyString →
  token ∉ Object_prototype →
  VIEWS_FILE_writable E = true →
  views_file w = Stored db →
  let cur := default {| watched := 0; completed := false; lastPing := None |}
               (db !! token) in
  tracking E "/track" token n w =
    (inr no_content,
     {| reg_file := reg_file w;
        views_file := Stored (<[token := {| watched := Z.max (watched cur) (ToInt32 n);
                                            completed := completed cur;
                                            lastPing := Some (iso_string (clock E (ticks w))) |}]> db);
        effects := effects w;
        ticks := S (ticks w) |}).
Proof.
  intros Hne Hown Hw Hv cur. rewrite (tracking_track token n w Hne), Hw, Hv.
  cbn [parse_file from_option id].
  rewrite assign_own by (apply inherited_other, Hown). reflexivity.
Qed.

(** A ping for a token, on the other path. *)
Lemma tracking_complete pathname token n w :
  pathname ≠ "/track" →
  token ≠ EmptyString →
  let db := default ∅ (parse_file (views_file w)) in
  let cur := default {| watched := 0; completed := false; lastPing := None |}
               (db !! token) in
  tracking E pathname token n w =
    if VIEWS_FILE_writable E
    then (inr no_content,
          {| reg_file := reg_file w;
             views_file :=
               Stored (assign db token
                         {| watched := watched cur;
                            completed := true;
                            lastPing := Some (iso_string (clock E (ticks w))) |});
             effects := effects w;
             ticks := S (ticks w) |})
    else (inl SystemError,
          {| reg_file := reg_file w; views_file := views_file w;
             effects := effects w; ticks := S (ticks w) |}).
Proof.
  intros Hp Hne db cur. unfold tracking.
  run ltac:(apply readViews_run).
  rewrite bool_decide_false by exact Hp.
  rewrite bool_decide_false by exact Hne.
  destruct (VIEWS_FILE_writable E) eqn:Hw.
  - run ltac:(run ltac:(reflexivity);
              unfold writeViews, put_views_file; rewrite Hw; reflexivity).
    reflexivity.
  - stop ltac:(run ltac:(reflexivity);
               unfold writeViews, put_views_file; rewrite Hw; reflexivity).
    reflexivity.
Qed.

(** After a ping the store holds what it held, or what it held with
    one entry assigned: [cur] is the entry the block has built. *)
Lemma tracking_store pathname token n w db :
  views_file w = Stored db →
  views_file (after (tracking E pathname token n) w) = Stored db
  ∨ ∃ cur,
      views_file (after (tracking E pathname token n) w) = Stored (assign db token cur)
      ∧ watched (default {| watched := 0; completed := false; lastPing := None |}
                   (db !! token)) ≤ watched cur
      ∧ (completed (default {| watched := 0; completed := false; lastPing := None |}
                      (db !! token)) = true → completed cur = true).
Proof.
  intros Hv. unfold after.
  destruct (decide (token = EmptyString)) as [->|Hne].
  { rewrite tracking_no_token. left. exact Hv. }
  destruct (decide (pathname = "/track")) as [->|Hp].
  - rewrite (tracking_track token n w Hne). rewrite Hv.
    destruct (VIEWS_FILE_writable E); [| left; reflexivity].
    right. eexists. split; [reflexivity |]. cbn [parse_file from_option id watched completed].
    split; [lia | tauto].
  - rewrite (tracking_complete pathname token n w Hp Hne). rewrite Hv.
    destruct (VIEWS_FILE_writable E); [| left; reflexivity].
    right. eexists. split; [reflexivity |]. cbn [parse_file from_option id watched completed].
    split; [lia | tauto].
Qed.

(** A ping leaves the registration store and the effects alone. *)
Lemma tracking_elsewhere pathname token n w :
  reg_file (after (tracking E pathname token n) w) = reg_file w
  ∧ effects (after (tracking E pathname token n) w) = effects w.
Proof.
  unfold after.
  destruct (decide (token = EmptyString)) as [->|Hne].
  { rewrite tracking_no_token. split; reflexivity. }
  destruct (decide (pathname = "/track")) as [->|Hp].
  - rewrite (tracking_track token n w Hne).
    destruct (VIEWS_FILE_writable E); split; reflexivity.
  - rewrite (tracking_complete pathname token n w Hp Hne).
    destruct (VIEWS_FILE_writable E); split; reflexivity.
Qed.

(** X18. A token that names a member every object inherits, such as
    constructor, toString or __proto__, and has no entry in the store
    is never tracked: [db[token]] finds the built-in, the members are
    set on it, and the store is written back, if at all, without the
    token. *)
Theorem inherited_name_is_not_tracked pathname token n w db :
  views_file w = Stored db →
  token ∈ Object_prototype →
  db !! token = None →
  views_file (after (tracking E pathname token n) w) = Stored db.
Proof.
  intros Hv Hin Hnone.
  assert (Hinh : inherited db token = true).
  { unfold inherited. rewrite !bool_decide_true by assumption. reflexivity. }
  destruct (tracking_store pathname token n w db Hv) as [H | (cur & H & _)]; [exact H |].
  rewrite H, (assign_inherited db token cur Hinh). reflexivity.
Qed.

(** X19. No ping takes anything back: every token of the store is
    still there afterwards, with a watched value that is not smaller
    and a completed flag that, once set, stays set. *)
Theorem tracking_takes_nothing_back pathname token n w db :
  views_file w = Stored db →
  ∃ db', views_file (after (tracking E pathname token n) w) = Stored db'
         ∧ ∀ u v, db !! u = Some v →
             ∃ v', db' !! u = Some v' ∧ watched v ≤ watched v'
                   ∧ (completed v = true → completed v' = true).
Proof.
  intros Hv.
  assert (Hsame : ∀ u v, db !! u = Some v →
            ∃ v', db !! u = Some v' ∧ watched v ≤ watched v'
                  ∧ (completed v = true → completed v' = true)).
  { intros u v Hu. exists v. split; [exact Hu |]. split; [lia | tauto]. }
  destruct (tracking_store pathname token n w db Hv) as [H | (cur & H & Hw & Hc)].
  { exists db. split; [exact H | exact Hsame]. }
  eexists. split; [exact H |]. intros u v Hu. rewrite lookup_assign.
  destruct (inherited db token); [apply Hsame, Hu |].
  destruct (decide (token = u)) as [->|Hne]; [| apply Hsame, Hu].
  rewrite Hu in Hw, Hc. exists cur. split; [reflexivity |]. split; [exact Hw | exact Hc].
Qed.

(** X20. A ping changes the entry of its own token and nothing else:
    the other tokens keep their entries, the registration store is not
    touched, and no mail is sent nor timer armed. *)
Theorem tracking_touches_one_token pathname token n w db :
  views_file w = Stored db →
  ∃ db', views_file (after (tracking E pathname token n) w) = Stored db'
         ∧ (∀ u, u ≠ token → db' !! u = db !! u)
         ∧ reg_file (after (tracking E pathname token n) w) = reg_file w
         ∧ effects (after (tracking E pathname token n) w) = effects w.
Proof.
  intros Hv. destruct (tracking_elsewhere pathname token n w) as [Hreg Heff].
  destruct (tracking_store pathname token n w db Hv) as [H | (cur & H & _)].
  { exists db. repeat split; assumption. }
  eexists. split; [exact H |]. split; [| split; assumption].
  intros u Hu. rewrite lookup_assign.
  destruct (inherited db token); [reflexivity |].
  destruct (decide (token = u)); [congruence | reflexivity].
Qed.


(** X22. The seconds of a ping are read as a 32-bit integer: a report
    of 2^31 seconds or more, below 2^32, wraps to a negative number
    and leaves a stored value that is not negative as it was. *)
Theorem oversized_report_is_ignored token z w db v :
  token ≠ EmptyString →
  views_file w = Stored db →
  db !! token = Some v →
  0 ≤ watched v →
  2 ^ 31 ≤ z < 2 ^ 32 →
  ToInt32 (Some z) = z - 2 ^ 32
  ∧ ∃ db' v', views_file (after (tracking E "/track" token (Some z)) w) = Stored db'
              ∧ db' !! token = Some v' ∧ watched v' = watched v.
Proof.
  intros Hne Hv Hdb Hw Hz.
  assert (Hwrap : ToInt32 (Some z) = z - 2 ^ 32).
  { unfold ToInt32. rewrite <- (Z.mod_unique (z + 2 ^ 31) (2 ^ 32) 1 (z - 2 ^ 31)); lia. }
  split; [exact Hwrap |].
  unfold after. rewrite tracking_track by exact Hne. rewrite Hv.
  destruct (VIEWS_FILE_writable E).
  2:{ exists db, v. split; [reflexivity |]. split; [exact Hdb | reflexivity]. }
  cbn [snd views_file parse_file from_option id]. rewrite Hdb.
  rewrite assign_own by (apply (inherited_stored db token v Hdb)).
  eexists _, _. split; [reflexivity |]. split; [apply lookup_insert_eq |].
  cbn [watched from_option id]. rewrite Hwrap. lia.
Qed.


End TrackingBlock.

Lemma inherited_name_is_not_tracked_witness :
  views_file (after (tracking Deployment.env0 "/track" "constructor" (Some 90))
                Deployment.tracked) =
    Stored {[ "tok" := {| watched := 120; completed := false; lastPing := None |} ]}.
Proof.
  apply (inherited_name_is_not_tracked Deployment.env0 "/track" "constructor" (Some 90)
           Deployment.tracked).
  - reflexivity.
  - compute_done.
  - reflexivity.
Defined.


Example watched_after_three_pings :
  fold_left Z.max (ToInt32 <$> [Some 90; Some 300; Some 45]) 120 = 300.
Proof. reflexivity. Qed.

Lemma tracking_takes_nothing_back_witness :
  ∃ db', views_file (after (tracking Deployment.env0 "/track" "tok" (Some 90))
                       Deployment.tracked) = Stored db'
         ∧ ∀ u v, ({[ "tok" := {| watched := 120; completed := false; lastPing := None |} ]}
                     : gmap string view) !! u = Some v →
             ∃ v', db' !! u = Some v' ∧ watched v ≤ watched v'
                   ∧ (completed v = true → completed v' = true).
Proof.
  apply (tracking_takes_nothing_back Deployment.env0 "/track" "tok" (Some 90)
           Deployment.tracked).
  reflexivity.
Defined.

Lemma tracking_touches_one_token_witness :
  ∃ db', views_file (after (tracking Deployment.env0 "/track" "tok" (Some 90))
                       Deployment.tracked) = Stored db'
         ∧ (∀ u, u ≠ "tok" →
              db' !! u =
              ({[ "tok" := {| watched := 120; completed := false; lastPing := None |} ]}
                 : gmap string view) !! u)
         ∧ reg_file (after (tracking Deployment.env0 "/track" "tok" (Some 90))
                       Deployment.tracked) = reg_file Deployment.tracked
         ∧ effects (after (tracking Deployment.env0 "/track" "tok" (Some 90))
                      Deployment.tracked) = effects Deployment.tracked.
Proof.
  apply (tracking_touches_one_token Deployment.env0 "/track" "tok" (Some 90)
           Deployment.tracked).
  reflexivity.
Defined.


Lemma oversized_report_is_ignored_witness :
  ToInt32 (Some 4000000000) = 4000000000 - 2 ^ 32
  ∧ ∃ db' v',
      views_file (after (tracking Deployment.env0 "/track" "tok" (Some 4000000000))
                    Deployment.tracked) = Stored db'
      ∧ db' !! "tok" = Some v' ∧ watched v' = 120.
Proof.
  apply (oversized_report_is_ignored Deployment.env0 "tok" 4000000000 Deployment.tracked
           {[ "tok" := {| watched := 120; completed := false; lastPing := None |} ]}
           {| watched := 120; completed := false; lastPing := None |}).
  - discriminate.
  - reflexivity.
  - reflexivity.
  - vm_compute. discriminate.
  - split; vm_compute; [discriminate | reflexivity].
Defined.

(** ** Further properties of the calendar *)
Section CalendarMore.

Lemma days_from_civil_day y m d : days_from_civil y m d = days_from_civil y m 1 + d - 1.
Proof. unfold days_from_civil. cbv zeta. lia. Qed.

(** The fields of a calendar day build that day again. *)
Lemma MakeDay_of_fields n :
  let '(y, m, d) := civil_from_days n in MakeDay y (m - 1) d = n.
Proof.
  pose proof (civil_ranges n) as Hr. pose proof (days_from_civil_of_civil n) as Hd.
  destruct (civil_from_days n) as [[y m] d]. destruct Hr as (Hm & _ & _).
  unfold MakeDay.
  replace ((m - 1) / 12) with 0 by (symmetry; apply Z.div_small; lia).
  replace ((m - 1) mod 12 + 1) with m by (rewrite Z.mod_small; lia).
  rewrite Z.add_0_r, <- days_from_civil_day. exact Hd.
Qed.

Lemma MakeDay_plus y m d k : MakeDay y m (d + k) = MakeDay y m d + k.
Proof. unfold MakeDay. lia. Qed.

Lemma getDay_local_day n : getDay (local_day n) = Some (WeekDay n).
Proof. unfold local_day. destruct (civil_from_days n) as [[y m] d]. reflexivity. Qed.

(** The answer of [getTimesForDate] is one of five lists. *)
Lemma getTimesForDate_cases d :
  getTimesForDate d = saturday ++ ["22:00"] ∨ getTimesForDate d = weekdays
  ∨ getTimesForDate d = friday ∨ getTimesForDate d = saturday
  ∨ getTimesForDate d = sunday.
Proof.
  unfold getTimesForDate. cbv zeta.
  repeat match goal with |- context [if ?b then _ else _] => destruct b end; tauto.
Qed.

Ltac read_slot :=
  eexists _, _; split; [reflexivity |]; split; [reflexivity |];
  split; split; vm_compute; discriminate.

Ltac next_slot :=
  eexists _, _; split; [reflexivity |]; split; [reflexivity | reflexivity].

(** X24. Every slot offered for a date reads as an hour from 0 to 23
    and a minute from 0 to 59, each slot is later in the day than the
    one listed before it, and a date has from three to ten slots. *)
Theorem slots_are_times_in_order d :
  Forall time_of_day (getTimesForDate d)
  ∧ later_and_later (getTimesForDate d)
  ∧ (3 ≤ length (getTimesForDate d) ≤ 10)%nat.
Proof.
  destruct (getTimesForDate_cases d) as [-> | [-> | [-> | [-> | ->]]]];
    (split; [repeat constructor; read_slot |]);
    (split; [cbn; repeat split; next_slot | cbn; lia]).
Qed.

(** X25. A click on a slot under a calendar day, 1970 or later,
    writes into the session field the instant of that slot on that
    very day in local time, in the form of [toISOString]: the day
    number times the length of a day plus the minutes of the slot,
    turned into UTC. *)
Theorem click_writes_the_slot_of_that_day utc n timeStr minutes :
  0 ≤ n →
  slot_minutes timeStr = Some minutes →
  Z.abs (utc (n * msPerDay + minutes * 60000)) ≤ maxTime →
  sessionInput_value utc (local_day n) timeStr =
    inr (iso_string (utc (n * msPerDay + minutes * 60000))).
Proof.
  intros Hn Hslot Hrange.
  pose proof (civil_ranges n) as Hr. pose proof (MakeDay_of_fields n) as Hmk.
  unfold sessionInput_value, local_day, slot_minutes in *.
  destruct (civil_from_days n) as [[y m] d]. destruct Hr as (_ & _ & Hy).
  cbn [getFullYear getMonth getDate].
  destruct (piece (split (λ c, Ascii.eqb c ":") timeStr) 0) as [h|]; [| discriminate Hslot].
  destruct (piece (split (λ c, Ascii.eqb c ":") timeStr) 1) as [mi|]; [| discriminate Hslot].
  injection Hslot as <-. unfold new_Date_local.
  rewrite bool_decide_false by (specialize (Hy Hn); lia).
  rewrite Hmk.
  replace (n * msPerDay + (h * 3600000 + mi * 60000))
    with (n * msPerDay + (60 * h + mi) * 60000) by lia.
  unfold TimeClip. rewrite bool_decide_true by exact Hrange. reflexivity.
Qed.

(** The days of the week of consecutive days go round. *)
Lemma WeekDay_plus b k : WeekDay (b + k) = ((b + 4) mod 7 + k) mod 7.
Proof.
  unfold WeekDay. rewrite Zplus_mod_idemp_l. f_equal. lia.
Qed.

Lemma dates_from_today y m d :
  dates y m d = (λ k, local_day (MakeDay y m d + k)) <$> seqZ 0 14.
Proof.
  unfold dates. apply list_fmap_ext. intros i k _. rewrite MakeDay_plus. reflexivity.
Qed.

Lemma length_filter_fmap {A B} (f : A → B) (P : B → Prop) `{!∀ x, Decision (P x)}
    (l : list A) :
  length (filter P (f <$> l)) = length (filter (λ x, P (f x)) l).
Proof.
  induction l as [|a l IH]; [reflexivity |].
  cbn [fmap list_fmap]. rewrite !filter_cons.
  destruct (decide (P (f a))); cbn [length]; rewrite IH; reflexivity.
Qed.

(** X26. The calendar shows fourteen days in a row from today on, and
    so each day of the week exactly twice. *)
Theorem calendar_shows_each_day_of_the_week_twice y m d k :
  0 ≤ k ≤ 6 →
  length (falling_on k (dates y m d)) = 2%nat
  ∧ length (dates y m d) = 14%nat
  ∧ ∀ i, (i < 14)%nat →
      dates y m d !! i = Some (local_day (MakeDay y m d + Z.of_nat i)).
Proof.
  intros Hk. rewrite dates_from_today. set (b := MakeDay y m d).
  split; [| split].
  - unfold falling_on. rewrite length_filter_fmap.
    rewrite (list_filter_iff _ (λ j, ((b + 4) mod 7 + j) mod 7 = k)).
    2:{ intros j. rewrite getDay_local_day, WeekDay_plus.
        split; [intros [= ?]; assumption | intros ->; reflexivity]. }
    pose proof (Z.mod_pos_bound (b + 4) 7 ltac:(lia)) as Hr.
    set (r := (b + 4) mod 7) in *. clearbody r.
    assert (Hrc : r = 0 ∨ r = 1 ∨ r = 2 ∨ r = 3 ∨ r = 4 ∨ r = 5 ∨ r = 6) by lia.
    assert (Hkc : k = 0 ∨ k = 1 ∨ k = 2 ∨ k = 3 ∨ k = 4 ∨ k = 5 ∨ k = 6) by lia.
    destruct Hrc as [-> | [-> | [-> | [-> | [-> | [-> | ->]]]]]];
      destruct Hkc as [-> | [-> | [-> | [-> | [-> | [-> | ->]]]]]];
      vm_compute; reflexivity.
  - rewrite length_fmap, length_seqZ. reflexivity.
  - intros i Hi. rewrite list_lookup_fmap.
    rewrite lookup_seqZ_lt by lia. cbn. do 2 f_equal.
Qed.

(** X27. The extra 22:00 slot is on offer in the calendar exactly
    while today is one of the fourteen days from 10 to 23 August
    2025. *)
Theorem extra_slot_is_on_offer_for_a_fortnight y m d :
  (∃ x, x ∈ dates y m d ∧ getTimesForDate x = saturday ++ ["22:00"])
  ↔ MakeDay 2025 7 10 ≤ MakeDay y m d ≤ MakeDay 2025 7 23.
Proof.
  rewrite dates_from_today. set (b := MakeDay y m d).
  change (MakeDay 2025 7 10) with 20310. change (MakeDay 2025 7 23) with 20323.
  split.
  - intros (x & Hx & Hslots). apply list_elem_of_fmap in Hx as (k & -> & Hk).
    apply elem_of_seqZ in Hk. apply override_iff, designated_local_day in Hslots.
    change (MakeDay 2025 7 23) with 20323 in Hslots. lia.
  - intros Hb. exists (local_day (b + (20323 - b))). split.
    + apply list_elem_of_fmap. exists (20323 - b). split; [reflexivity |].
      apply elem_of_seqZ. lia.
    + apply override_iff, designated_local_day. change (MakeDay 2025 7 23) with 20323. lia.
Qed.

End CalendarMore.

Lemma click_writes_the_slot_of_that_day_witness :
  sessionInput_value (λ t, t - 7200000) (local_day 20323) "16:00" =
    inr (iso_string (20323 * msPerDay + 960 * 60000 - 7200000)).
Proof.
  apply (click_writes_the_slot_of_that_day (λ t, t - 7200000) 20323 "16:00" 960).
  - discriminate.
  - reflexivity.
  - vm_compute. discriminate.
Defined.

Example click_on_16_00_in_paris :
  sessionInput_value (λ t, t - 7200000) (local_day 20323) "16:00" =
    inr "2025-08-23T14:00:00.000Z".
Proof. vm_compute. reflexivity. Qed.

Lemma calendar_shows_each_day_of_the_week_twice_witness :
  length (falling_on 6 (dates 2025 7 1)) = 2%nat
  ∧ length (dates 2025 7 1) = 14%nat
  ∧ ∀ i, (i < 14)%nat →
      dates 2025 7 1 !! i = Some (local_day (MakeDay 2025 7 1 + Z.of_nat i)).
Proof.
  apply (calendar_shows_each_day_of_the_week_twice 2025 7 1 6).
  split; discriminate.
Defined.

(** ** The content type of a static file *)
Section ContentType.

Lemma split_without_separator sep s :
  Forall (λ c, sep c = false) (list_ascii_of_string s) → split sep s = [s].
Proof.
  induction s as [|c s IH]; intros Hs; [reflexivity |].
  cbn [list_ascii_of_string] in Hs. apply Forall_cons in Hs as [Hc Hs].
  cbn [split]. rewrite Hc, (IH Hs). reflexivity.
Qed.

(** The last segment of a path is the name that follows its last
    slash. *)
Lemma basename_in_directory dir name :
  name ≠ EmptyString →
  Forall (λ c, is_slash c = false) (list_ascii_of_string name) →
  basename (dir +:+ "/" +:+ name) = name.
Proof.
  intros Hne Hname. unfold basename.
  change (dir +:+ "/" +:+ name) with (dir +:+ String "/" name).
  rewrite (split_app_sep is_slash dir "/" name) by reflexivity.
  rewrite (split_without_separator is_slash name Hname).
  rewrite filter_app, filter_cons_True by exact Hne. rewrite filter_nil, last_snoc.
  reflexivity.
Qed.

Lemma last_dot_none e :
  Forall (λ c, Ascii.eqb c "." = false) (list_ascii_of_string e) → last_dot e = None.
Proof.
  induction e as [|c e IH]; intros He; [reflexivity |].
  cbn [list_ascii_of_string] in He. apply Forall_cons in He as [Hc He].
  cbn [last_dot]. rewrite (IH He), Hc. reflexivity.
Qed.

(** The extension of a name starts at its last dot. *)
Lemma last_dot_app x e :
  Forall (λ c, Ascii.eqb c "." = false) (list_ascii_of_string e) →
  last_dot (x +:+ String "." e) = Some (String "." e).
Proof.
  intros He. induction x as [|c x IH].
  - change (last_dot (String "." e) = Some (String "." e)).
    cbn [last_dot]. rewrite (last_dot_none e He). reflexivity.
  - change (last_dot (String c (x +:+ String "." e)) = Some (String "." e)).
    cbn [last_dot]. rewrite IH. reflexivity.
Qed.

Lemma extname_in_directory dir name e :
  name ≠ EmptyString →
  e ≠ EmptyString →
  Forall (λ c, is_slash c = false) (list_ascii_of_string (name +:+ String "." e)) →
  Forall (λ c, Ascii.eqb c "." = false) (list_ascii_of_string e) →
  extname (dir +:+ "/" +:+ name +:+ String "." e) = String "." e.
Proof.
  intros Hname He Hslash Hdot. unfold extname.
  rewrite (basename_in_directory dir (name +:+ String "." e)); [| | exact Hslash].
  2:{ destruct name; [contradiction | discriminate]. }
  destruct name as [|c name]; [contradiction |].
  change (String c name +:+ String "." e) with (String c (name +:+ String "." e)).
  cbv beta iota. rewrite bool_decide_false.
  - rewrite (last_dot_app name e Hdot). reflexivity.
  - intros [= -> Heq]. destruct name as [|c' name]; [| destruct name; discriminate Heq].
    injection Heq as ->. contradiction.
Qed.

Ltac plain := cbn [list_ascii_of_string]; repeat constructor.

(** X28. A static file is served with the type of the extension of
    its name, whatever the directory it lies in and whatever comes
    before the extension: text/html for .html, text/css for .css, and
    so on for the eight extensions the server knows. *)
Theorem content_type_follows_the_extension dir name ext type :
  (ext, type) ∈ content_types →
  name ≠ EmptyString →
  Forall (λ c, is_slash c = false) (list_ascii_of_string name) →
  getContentType (dir +:+ "/" +:+ name +:+ ext) = type.
Proof.
  intros Hin Hname Hslash. unfold getContentType, content_types in *.
  assert (Hall : ∀ e, Forall (λ c, is_slash c = false) (list_ascii_of_string e) →
            Forall (λ c, is_slash c = false)
              (list_ascii_of_string (name +:+ String "." e))).
  { intros e He. rewrite list_ascii_of_string_app. apply Forall_app. split; [exact Hslash |].
    cbn [list_ascii_of_string]. constructor; [reflexivity | exact He]. }
  repeat (apply elem_of_cons in Hin as [[= -> ->] | Hin]);
    [ .. | by apply elem_of_nil in Hin ];
    (rewrite extname_in_directory;
     [ reflexivity | exact Hname | discriminate | apply Hall; plain | plain ]).
Qed.

End ContentType.

Lemma content_type_follows_the_extension_witness :
  getContentType ("/srv/app/public/css" +:+ "/" +:+ "site.min" +:+ ".css") =
    "text/css; charset=utf-8".
Proof.
  apply (content_type_follows_the_extension "/srv/app/public/css" "site.min" ".css"
           "text/css; charset=utf-8").
  - compute_done.
  - discriminate.
  - cbn [list_ascii_of_string]. repeat constructor.
Defined.

Example content_type_ignores_case :
  getContentType "/srv/app/public/INDEX.HTML" = "text/html; charset=utf-8".
Proof. vm_compute. reflexivity. Qed.

Example content_type_of_a_name_without_extension :
  getContentType "/srv/app/public/.env" = "application/octet-stream".
Proof. vm_compute. reflexivity. Qed.
